(** * Traffic ingestion, alerting and auto-blocking of the intrusion-detection backend

    A shallow embedding of the two ingestion handlers of the traffic router
    ([POST /api/traffic/log] and [POST /api/traffic/analyze]) together with the
    Sequelize models they write to ([TrafficLog], [Alert], [BlockedIP]).

    Conventions of the embedding.
    - A request-body field is an [option]: [None] stands for a field that is
      absent ([undefined]) or [null]; both behave alike in every expression
      of the handlers that is modelled here, except in template strings.
    - Numbers that carry a confidence are exact rationals ([Q]); the
      thresholds of the handlers are the decimal literals of the source.
    - Each [await] of a handler is one atomic step on the store.  What the
      outside world contributes to a step (is the database reachable, what do
      the clocks read) is an explicit argument of the step.
    - The store enforces what the model files declare: [allowNull: false],
      [unique: true], [validate: { min, max }], [ENUM] membership and
      [defaultValue].  The textual format of the column types ([INET],
      [INTEGER], [STRING(n)]) is not modelled: a present field is taken to fit
      its column.  Free-text [description]s and fields that no handler here
      writes are left out of the records.
    - A request reaches a handler after the [authenticate] and [authorize]
      middleware has let it through; [user_id] is [req.user.id]. *)

From Stdlib Require Import ZArith QArith List String Ascii Bool Lia Lqa Permutation.
Import ListNotations.

Local Open Scope string_scope.
Local Open Scope Z_scope.

(* ------------------------------------------------------------------ *)
(** ** JavaScript expressions used by the handlers *)

Module JS.

(** [x ? ... : ...] on a boolean field: [undefined], [null] and [false] are falsy. *)
Definition truthy (b : option bool) : bool :=
  match b with
  | Some true => true
  | _ => false
  end.

(** [s ? ... : ...] on a string field: absent and the empty string are falsy. *)
Definition truthy_str (s : option string) : bool :=
  match s with
  | Some EmptyString => false
  | Some _ => true
  | None => false
  end.

(** [x >= t] for a numeric field and a positive literal [t]:
    [undefined >= t] and [null >= t] are both [false]. *)
Definition ge (x : option Q) (t : Q) : bool :=
  match x with
  | Some q => Qle_bool t q
  | None => false
  end.

(** [a && b] where [a] is a boolean field and [b] a boolean: the value of
    the expression is [a] itself when [a] is falsy. *)
Definition and_then (a : option bool) (b : bool) : option bool :=
  match a with
  | Some true => Some b
  | other => other
  end.

Definition lower_char (c : ascii) : ascii :=
  let n := nat_of_ascii c in
  if (Nat.leb 65 n && Nat.leb n 90)%bool then ascii_of_nat (n + 32) else c.

(** [s.toLowerCase()], on ASCII text. *)
Fixpoint toLowerCase (s : string) : string :=
  match s with
  | EmptyString => EmptyString
  | String c rest => String (lower_char c) (toLowerCase rest)
  end.

(** [`${x}`] inside a template string. *)
Definition interp (x : option string) : string :=
  match x with
  | Some s => s
  | None => "undefined"
  end.

End JS.

(* ------------------------------------------------------------------ *)
(** ** The Sequelize models and the store behind them *)

Module Models.

Inductive DbError : Type :=
| NotNullViolation (field : string)
| ValidationFailed (field : string)
| InvalidEnumValue (field : string)
| UniqueViolation (field : string)
| ConnectionError.

(** traffic.model.js *)
Record TrafficLogAttrs : Type := {
  srcIp : option string;
  dstIp : option string;
  srcPort : option Z;
  dstPort : option Z;
  protocol : option string;
  packetSize : option Z;
  isAttack : option bool;
  attackType : option string;
  confidenceScore : option Q;
  anomalyScore : option Q;
  trafficState : option string
}.

Record TrafficLog : Type := {
  log_id : Z;
  timestamp : Z;
  log_attrs : TrafficLogAttrs
}.

(** alert.model.js *)
Record AlertAttrs : Type := {
  trafficLogId : option Z;
  alertType : option string;
  severity : option Z;
  title : option string;
  attackCategory : option string;
  status : option string;
  autoBlocked : option bool
}.

Record Alert : Type := {
  alert_id : Z;
  alert_attrs : AlertAttrs
}.

(** blocked-ip.model.js *)
Record BlockedIPAttrs : Type := {
  ipAddress : option string;
  reason : option string;
  blockedBy : option Z;
  blockType : option string;
  blockedAt : option Z;
  expiresAt : option Z;
  unblockedAt : option Z
}.

Record BlockedIP : Type := {
  block_id : Z;
  block_attrs : BlockedIPAttrs
}.

(** The three tables, the auto-increment sequence of [traffic_logs.id] and
    a counter that stands for the supply of fresh UUIDs. *)
Record Store : Type := {
  traffic_logs : list TrafficLog;
  alerts : list Alert;
  blocked_ips : list BlockedIP;
  traffic_log_seq : Z;
  uuid_seq : Z
}.

Definition empty_store : Store :=
  {| traffic_logs := []; alerts := []; blocked_ips := [];
     traffic_log_seq := 1; uuid_seq := 1 |}.

(** *** Column constraints *)

Definition not_null {A : Type} (field : string) (v : option A) : option DbError :=
  match v with
  | Some _ => None
  | None => Some (NotNullViolation field)
  end.

Definition in_range (field : string) (lo hi : Z) (v : option Z) : option DbError :=
  match v with
  | Some n => if ((lo <=? n) && (n <=? hi))%bool then None else Some (ValidationFailed field)
  | None => None
  end.

Definition in_enum (field : string) (values : list string) (v : option string)
  : option DbError :=
  match v with
  | Some x => if existsb (String.eqb x) values then None else Some (InvalidEnumValue field)
  | None => None
  end.

Definition first_error (checks : list (option DbError)) : option DbError :=
  fold_right (fun c rest => match c with Some e => Some e | None => rest end) None checks.

Definition default {A : Type} (d : A) (v : option A) : option A :=
  match v with
  | Some x => Some x
  | None => Some d
  end.

Definition opt_eqb (a b : option string) : bool :=
  match a, b with
  | Some x, Some y => String.eqb x y
  | None, None => true
  | _, _ => false
  end.

Definition is_null {A : Type} (v : option A) : bool :=
  match v with
  | Some _ => false
  | None => true
  end.

(** *** TrafficLog *)

Definition traffic_states : list string := ["normal"; "suspicious"; "attack"; "blocked"].

Definition TrafficLog_validate (a : TrafficLogAttrs) : option DbError :=
  first_error [not_null "srcIp" (srcIp a); not_null "dstIp" (dstIp a);
               not_null "protocol" (protocol a)].

Definition TrafficLog_constraints (a : TrafficLogAttrs) : option DbError :=
  in_enum "trafficState" traffic_states (trafficState a).

Definition TrafficLog_defaults (a : TrafficLogAttrs) : TrafficLogAttrs :=
  {| srcIp := srcIp a; dstIp := dstIp a; srcPort := srcPort a; dstPort := dstPort a;
     protocol := protocol a; packetSize := packetSize a; isAttack := isAttack a;
     attackType := attackType a; confidenceScore := confidenceScore a;
     anomalyScore := anomalyScore a;
     trafficState := default "normal" (trafficState a) |}.

(** [db.TrafficLog.create(a)]: validation by Sequelize, then the INSERT. *)
Definition TrafficLog_create (down : bool) (now : Z) (a : TrafficLogAttrs) (s : Store)
  : DbError + TrafficLog * Store :=
  match TrafficLog_validate a with
  | Some e => inl e
  | None =>
    if down then inl ConnectionError else
    match TrafficLog_constraints a with
    | Some e => inl e
    | None =>
      let row := {| log_id := traffic_log_seq s; timestamp := now;
                    log_attrs := TrafficLog_defaults a |} in
      inr (row, {| traffic_logs := traffic_logs s ++ [row];
                   alerts := alerts s;
                   blocked_ips := blocked_ips s;
                   traffic_log_seq := traffic_log_seq s + 1;
                   uuid_seq := uuid_seq s |})
    end
  end.

(** *** Alert *)

Definition alert_statuses : list string :=
  ["open"; "investigating"; "resolved"; "false_positive"].

Definition Alert_validate (a : AlertAttrs) : option DbError :=
  first_error [not_null "alertType" (alertType a); not_null "severity" (severity a);
               in_range "severity" 1 5 (severity a); not_null "title" (title a)].

Definition Alert_constraints (a : AlertAttrs) : option DbError :=
  in_enum "status" alert_statuses (status a).

Definition Alert_defaults (a : AlertAttrs) : AlertAttrs :=
  {| trafficLogId := trafficLogId a; alertType := alertType a; severity := severity a;
     title := title a; attackCategory := attackCategory a;
     status := default "open" (status a);
     autoBlocked := default false (autoBlocked a) |}.

(** [db.Alert.create(a)] *)
Definition Alert_create (down : bool) (a : AlertAttrs) (s : Store)
  : DbError + Alert * Store :=
  match Alert_validate a with
  | Some e => inl e
  | None =>
    if down then inl ConnectionError else
    match Alert_constraints a with
    | Some e => inl e
    | None =>
      let row := {| alert_id := uuid_seq s; alert_attrs := Alert_defaults a |} in
      inr (row, {| traffic_logs := traffic_logs s;
                   alerts := alerts s ++ [row];
                   blocked_ips := blocked_ips s;
                   traffic_log_seq := traffic_log_seq s;
                   uuid_seq := uuid_seq s + 1 |})
    end
  end.

(** *** BlockedIP *)

Definition block_types : list string := ["temporary"; "permanent"].

Definition BlockedIP_validate (a : BlockedIPAttrs) : option DbError :=
  first_error [not_null "ipAddress" (ipAddress a); not_null "reason" (reason a)].

Definition has_ip (ip : option string) (b : BlockedIP) : bool :=
  opt_eqb (ipAddress (block_attrs b)) ip.

(** [ipAddress] is declared [unique: true]: the unique index covers every
    row of the table, whatever its [unblockedAt]. *)
Definition BlockedIP_constraints (a : BlockedIPAttrs) (s : Store) : option DbError :=
  first_error [in_enum "blockType" block_types (blockType a);
               if existsb (has_ip (ipAddress a)) (blocked_ips s)
               then Some (UniqueViolation "ipAddress") else None].

Definition BlockedIP_defaults (now : Z) (a : BlockedIPAttrs) : BlockedIPAttrs :=
  {| ipAddress := ipAddress a; reason := reason a; blockedBy := blockedBy a;
     blockType := default "temporary" (blockType a);
     blockedAt := default now (blockedAt a);
     expiresAt := expiresAt a; unblockedAt := unblockedAt a |}.

(** [db.BlockedIP.create(a)] *)
Definition BlockedIP_create (down : bool) (now : Z) (a : BlockedIPAttrs) (s : Store)
  : DbError + BlockedIP * Store :=
  match BlockedIP_validate a with
  | Some e => inl e
  | None =>
    if down then inl ConnectionError else
    match BlockedIP_constraints a s with
    | Some e => inl e
    | None =>
      let row := {| block_id := uuid_seq s; block_attrs := BlockedIP_defaults now a |} in
      inr (row, {| traffic_logs := traffic_logs s;
                   alerts := alerts s;
                   blocked_ips := blocked_ips s ++ [row];
                   traffic_log_seq := traffic_log_seq s;
                   uuid_seq := uuid_seq s + 1 |})
    end
  end.

(** A block is active while its [unblockedAt] is null. *)
Definition active (b : BlockedIP) : bool := is_null (unblockedAt (block_attrs b)).

(** [db.BlockedIP.findOne({ where: { ipAddress: ip, unblockedAt: null } })] *)
Definition BlockedIP_findOne_active (down : bool) (ip : option string) (s : Store)
  : DbError + option BlockedIP :=
  if down then inl ConnectionError
  else inr (find (fun b => (has_ip ip b && active b)%bool) (blocked_ips s)).

(** The active blocks of one address, as the dashboard counts them. *)
Definition active_blocks (ip : string) (s : Store) : list BlockedIP :=
  filter (fun b => (has_ip (Some ip) b && active b)%bool) (blocked_ips s).

(** The unique index on [blocked_ips.ip_address]. *)
Definition unique_ips (s : Store) : Prop :=
  NoDup (map (fun b => ipAddress (block_attrs b)) (blocked_ips s)).

End Models.

(* ------------------------------------------------------------------ *)
(** ** The traffic router: [/log] and [/analyze] *)

Module TrafficRoutes.
Import Models.

(** What the outside world contributes to one awaited store operation:
    whether the database can be reached, what [Date.now()] reads in the
    handler and what the store reads for a [DataTypes.NOW] default. *)
Record World : Type := {
  db_down : bool;
  date_now : Z;
  column_now : Z
}.

(** The body of [POST /api/traffic/log], as destructured by the handler. *)
Record LogBody : Type := {
  src_ip : option string;
  dst_ip : option string;
  src_port : option Z;
  dst_port : option Z;
  protocol : option string;
  packet_size : option Z;
  is_attack : option bool;
  predicted_class : option string;
  confidence : option Q;
  state : option string
}.

(** The reply of the ML service to [/predict]. *)
Record Prediction : Type := {
  p_is_attack : option bool;
  p_attack_type : option string;
  p_confidence : option Q;
  p_anomaly_score : option Q
}.

(** What a [catch] block can receive. *)
Inductive Thrown : Type :=
| DbThrown (e : DbError)
| AxiosError (msg : string)
| TypeError.

Inductive Response : Type :=
| LogOk (trafficLog : TrafficLog) (alertCreated : option bool)
| AnalyzeOk (trafficLog : TrafficLog) (prediction : Prediction)
| Err500 (error message : string) (details : Thrown).

(** Socket.io broadcasts: ['new_alert'] to room [alerts], ['new_traffic'] to room [traffic]. *)
Inductive Event : Type :=
| new_alert (a : Alert)
| new_traffic (t : TrafficLog).


(** *** POST /api/traffic/log *)

Definition by_flag (b : LogBody) : string :=
  if JS.truthy (is_attack b) then "attack" else "normal".

(** [state ? (state.toLowerCase() === 'active' ? (is_attack ? 'attack' : 'normal')
                                               : state.toLowerCase())
           : (is_attack ? 'attack' : 'normal')] *)
Definition log_trafficState (b : LogBody) : string :=
  match state b with
  | Some st =>
    if JS.truthy_str (Some st) then
      if String.eqb (JS.toLowerCase st) "active" then by_flag b else JS.toLowerCase st
    else by_flag b
  | None => by_flag b
  end.

(** [predicted_class !== 'BENIGN' ? predicted_class : null] *)
Definition log_attackType (b : LogBody) : option string :=
  match predicted_class b with
  | Some c => if String.eqb c "BENIGN" then None else Some c
  | None => None
  end.

Definition log_traffic_attrs (b : LogBody) : TrafficLogAttrs :=
  {| srcIp := src_ip b;
     dstIp := dst_ip b;
     srcPort := src_port b;
     dstPort := dst_port b;
     Models.protocol := protocol b;
     packetSize := packet_size b;
     isAttack := is_attack b;
     attackType := log_attackType b;
     confidenceScore := confidence b;
     anomalyScore := None;
     trafficState := Some (log_trafficState b) |}.

(** [is_attack && confidence >= 0.5], as a condition. *)
Definition alert_due (b : LogBody) : bool :=
  (JS.truthy (is_attack b) && JS.ge (confidence b) 0.5)%bool.

Definition log_alert_attrs (b : LogBody) (t : TrafficLog) : AlertAttrs :=
  {| trafficLogId := Some (log_id t);
     alertType := Some (if JS.ge (confidence b) 0.8 then "CRITICAL" else "HIGH");
     severity := Some (if JS.ge (confidence b) 0.9 then 5
                       else if JS.ge (confidence b) 0.7 then 4 else 3);
     title := Some (JS.interp (predicted_class b) ++ " detected from "
                    ++ JS.interp (src_ip b))%string;
     attackCategory := predicted_class b;
     status := Some "open";
     autoBlocked := None |}.

Definition log_block_attrs (user_id : Z) (w : World) (b : LogBody) : BlockedIPAttrs :=
  {| ipAddress := src_ip b;
     reason := Some ("Automated block: " ++ JS.interp (predicted_class b)
                     ++ " attack detected")%string;
     blockedBy := Some user_id;
     blockType := None;
     blockedAt := None;
     expiresAt := Some (date_now w + 24 * 60 * 60 * 1000);
     unblockedAt := None |}.

(** Where a running [/log] handler is suspended. *)
Inductive LogPc : Type :=
| AwaitTrafficLog
| AwaitAlert (t : TrafficLog)
| AwaitFindBlock (t : TrafficLog) (a : Alert)
| AwaitBlockCreate (t : TrafficLog) (a : Alert)
| Responded (r : Response) (emitted : list Event).

Definition log_ok (b : LogBody) (t : TrafficLog) (emitted : list Event) : LogPc :=
  Responded (LogOk t (JS.and_then (is_attack b) (JS.ge (confidence b) 0.5))) emitted.

(** The [catch] block of the handler. *)
Definition log_error (e : Thrown) : LogPc :=
  Responded (Err500 "LogError" "Failed to log traffic" e) [].

(** One awaited store operation of the handler and the synchronous code
    that follows it, up to the next [await] or to the response. *)
Definition log_step (user_id : Z) (b : LogBody) (w : World) (pc : LogPc) (s : Store)
  : LogPc * Store :=
  match pc with
  | AwaitTrafficLog =>
    match TrafficLog_create (db_down w) (column_now w) (log_traffic_attrs b) s with
    | inl e => (log_error (DbThrown e), s)
    | inr (t, s') =>
      if alert_due b then (AwaitAlert t, s')
      else (log_ok b t [new_traffic t], s')
    end
  | AwaitAlert t =>
    match Alert_create (db_down w) (log_alert_attrs b t) s with
    | inl e => (log_error (DbThrown e), s)
    | inr (a, s') =>
      if JS.ge (confidence b) 0.7 then (AwaitFindBlock t a, s')
      else (log_ok b t [new_alert a; new_traffic t], s')
    end
  | AwaitFindBlock t a =>
    match BlockedIP_findOne_active (db_down w) (src_ip b) s with
    | inl e => (log_error (DbThrown e), s)
    | inr (Some _) => (log_ok b t [new_alert a; new_traffic t], s)
    | inr None => (AwaitBlockCreate t a, s)
    end
  | AwaitBlockCreate t a =>
    match BlockedIP_create (db_down w) (column_now w) (log_block_attrs user_id w b) s with
    | inl e => (log_error (DbThrown e), s)
    | inr (_, s') => (log_ok b t [new_alert a; new_traffic t], s')
    end
  | Responded _ _ => (pc, s)
  end.

(** The awaits of the handler, in program order. *)
Inductive Await : Type := at_traffic | at_alert | at_find | at_block.

Definition await_of (pc : LogPc) : Await :=
  match pc with
  | AwaitTrafficLog => at_traffic
  | AwaitAlert _ => at_alert
  | AwaitFindBlock _ _ => at_find
  | _ => at_block
  end.

(** A whole request served alone: the handler runs through its (at most
    four) awaits, the world at each await given by [env]. *)
Definition log_handler (user_id : Z) (b : LogBody) (env : Await -> World) (s : Store)
  : LogPc * Store :=
  let next := fun st : LogPc * Store => log_step user_id b (env (await_of (fst st))) (fst st) (snd st) in
  next (next (next (next (AwaitTrafficLog, s)))).

Definition response_of (pc : LogPc) : option Response :=
  match pc with
  | Responded r _ => Some r
  | _ => None
  end.

(** A world in which the database is reachable at every await. *)
Definition calm (now : Z) : Await -> World :=
  fun _ => {| db_down := false; date_now := now; column_now := now |}.

(** *** POST /api/traffic/analyze *)

(** What [axios.post(ML_API_URL/predict, ...)] resolves to: it rejects when
    the service is unreachable, times out (10 s) or answers with a non-2xx
    status; otherwise [mlResponse.data] is the parsed body.  [Replied None]
    is a body that is the JSON value [null], on which reading a field
    throws.  Any other body is [Replied (Some p)]: reading a field that the
    body does not have gives [undefined], so an empty body is a prediction
    all of whose fields are absent. *)
Inductive Gateway : Type :=
| Rejected (msg : string)
| Replied (data : option Prediction).

(** [{ ...trafficData, isAttack, attackType, confidenceScore, anomalyScore, trafficState }] *)
Definition analyze_traffic_attrs (trafficData : TrafficLogAttrs) (p : Prediction)
  : TrafficLogAttrs :=
  {| srcIp := srcIp trafficData;
     dstIp := dstIp trafficData;
     srcPort := srcPort trafficData;
     dstPort := dstPort trafficData;
     Models.protocol := Models.protocol trafficData;
     packetSize := packetSize trafficData;
     isAttack := p_is_attack p;
     attackType := p_attack_type p;
     confidenceScore := p_confidence p;
     anomalyScore := p_anomaly_score p;
     trafficState := Some (if JS.truthy (p_is_attack p) then "attack" else "normal") |}.

Definition analyze_alert_attrs (trafficData : TrafficLogAttrs) (p : Prediction)
  (t : TrafficLog) : AlertAttrs :=
  {| trafficLogId := Some (log_id t);
     alertType := Some "HIGH";
     severity := Some (if JS.ge (p_confidence p) 0.95 then 5 else 4);
     title := Some (JS.interp (p_attack_type p) ++ " attack detected from "
                    ++ JS.interp (srcIp trafficData))%string;
     attackCategory := p_attack_type p;
     status := None;
     autoBlocked := None |}.

(** The [catch] block of the handler. *)
Definition analyze_error (e : Thrown) (s : Store) : Response * list Event * Store :=
  (Err500 "AnalysisError" "Failed to analyze traffic" e, [], s).

(** The handler of [/analyze]; [w_traffic] and [w_alert] are the worlds at
    its two store operations. *)
Definition analyze_handler (trafficData : TrafficLogAttrs) (gw : Gateway)
  (w_traffic w_alert : World) (s : Store) : Response * list Event * Store :=
  match gw with
  | Rejected msg => analyze_error (AxiosError msg) s
  | Replied None => analyze_error TypeError s
  | Replied (Some p) =>
    match TrafficLog_create (db_down w_traffic) (column_now w_traffic)
            (analyze_traffic_attrs trafficData p) s with
    | inl e => analyze_error (DbThrown e) s
    | inr (t, s1) =>
      if (JS.truthy (p_is_attack p) && JS.ge (p_confidence p) 0.85)%bool then
        match Alert_create (db_down w_alert) (analyze_alert_attrs trafficData p t) s1 with
        | inl e => analyze_error (DbThrown e) s1
        | inr (a, s2) => (AnalyzeOk t p, [new_alert a; new_traffic t], s2)
        end
      else (AnalyzeOk t p, [new_traffic t], s1)
    end
  end.

(** *** Requests served concurrently *)

(** A request in flight: who sent it, its body and where its handler is. *)
Record Thread : Type := {
  th_user : Z;
  th_body : LogBody;
  th_pc : LogPc
}.

Definition spawn (user_id : Z) (b : LogBody) : Thread :=
  {| th_user := user_id; th_body := b; th_pc := AwaitTrafficLog |}.

Definition System : Type := (list Thread * Store)%type.

Fixpoint advance (i : nat) (w : World) (ts : list Thread) (s : Store) : System :=
  match ts, i with
  | [], _ => ([], s)
  | th :: rest, O =>
    let '(pc, s') := log_step (th_user th) (th_body th) w (th_pc th) s in
    ({| th_user := th_user th; th_body := th_body th; th_pc := pc |} :: rest, s')
  | th :: rest, S j =>
    let '(rest', s') := advance j w rest s in
    (th :: rest', s')
  end.

(** The server accepts a new request, or the event loop resumes one
    suspended handler. *)
Inductive sys_step : System -> System -> Prop :=
| accept (user_id : Z) (b : LogBody) (ts : list Thread) (s : Store) :
    sys_step (ts, s) ((ts ++ [spawn user_id b])%list, s)
| resume (i : nat) (w : World) (ts : list Thread) (s : Store) :
    sys_step (ts, s) (advance i w ts s).

Inductive reachable (init : System) : System -> Prop :=
| reach_init : reachable init init
| reach_step (mid final : System) :
    reachable init mid -> sys_step mid final -> reachable init final.

End TrafficRoutes.

(* ------------------------------------------------------------------ *)
(** ** The authentication middleware *)

Module Auth.

(** The columns of a user row that the middleware reads. *)
Record User : Type := {
  id : Z;
  username : string;
  role : string;
  isActive : bool
}.

(** The request, as far as the middleware reads and writes it. *)
Record Req : Type := {
  authorization : option string;
  user : option User;
  userId : option Z;
  userRole : option string
}.

(** A middleware either calls [next()] on the request or answers itself. *)
Inductive Outcome : Type :=
| Next (req : Req)
| Sent (status : Z) (error message : string).

(** [jwt.verify(token, JWT_SECRET)]: the decoded payload, whose [userId]
    may be missing, or a thrown error, known by its [name]. *)
Inductive Verified : Type :=
| Decoded (userId : option Z)
| Throws (name : string).

(** [s.startsWith(p)] *)
Definition startsWith (s p : string) : bool := String.prefix p s.

Fixpoint drop (n : nat) (s : string) : string :=
  match n, s with
  | O, _ => s
  | S m, String _ rest => drop m rest
  | S _, EmptyString => EmptyString
  end.

(** [s.replace(pat, rep)] for a string pattern: the first occurrence only. *)
Fixpoint replace (pat rep s : string) : string :=
  if String.prefix pat s then (rep ++ drop (String.length pat) s)%string
  else match s with
       | EmptyString => EmptyString
       | String c rest => String c (replace pat rep rest)
       end.

(** [db.User.findByPk(pk)]: [null] without a query when [pk] is missing;
    [inl] is the name of the error thrown when the database is down. *)
Definition findByPk (down : bool) (users : list User) (pk : option Z)
  : string + option User :=
  match pk with
  | None => inr None
  | Some k =>
    if down then inl "SequelizeConnectionError"
    else inr (find (fun u => Z.eqb (id u) k) users)
  end.

(** The [catch] block of [authenticate]. *)
Definition auth_catch (name : string) : Outcome :=
  if String.eqb name "TokenExpiredError" then Sent 401 "TokenExpired" "Token has expired"
  else if String.eqb name "JsonWebTokenError" then Sent 401 "InvalidToken" "Token is invalid"
  else Sent 500 "AuthenticationError" "Authentication failed".

Definition attach (req : Req) (u : User) : Req :=
  {| authorization := authorization req;
     user := Some u;
     userId := Some (id u);
     userRole := Some (role u) |}.

Definition bearer (req : Req) : option string :=
  match authorization req with
  | Some h => if startsWith h "Bearer " then Some (replace "Bearer " "" h) else None
  | None => None
  end.

(** [authenticate] *)
Definition authenticate (verify : string -> Verified) (down : bool) (users : list User)
  (req : Req) : Outcome :=
  match bearer req with
  | None => Sent 401 "Unauthorized" "No token provided"
  | Some token =>
    match verify token with
    | Throws name => auth_catch name
    | Decoded pk =>
      match findByPk down users pk with
      | inl name => auth_catch name
      | inr None => Sent 401 "Unauthorized" "User not found"
      | inr (Some u) =>
        if isActive u then Next (attach req u)
        else Sent 403 "Forbidden" "Account is disabled"
      end
    end
  end.

(** [allowedRoles.includes(req.userRole)] *)
Definition includes (allowedRoles : list string) (r : option string) : bool :=
  match r with
  | Some x => existsb (String.eqb x) allowedRoles
  | None => false
  end.

(** [authorize(...allowedRoles)] *)
Definition authorize (allowedRoles : list string) (req : Req) : Outcome :=
  match user req with
  | None => Sent 401 "Unauthorized" "Authentication required"
  | Some _ =>
    if includes allowedRoles (userRole req) then Next req
    else Sent 403 "Forbidden" "Insufficient permissions"
  end.

(** [optionalAuth] *)
Definition optionalAuth (verify : string -> Verified) (down : bool) (users : list User)
  (req : Req) : Outcome :=
  match bearer req with
  | None => Next req
  | Some token =>
    match verify token with
    | Throws _ => Next req
    | Decoded pk =>
      match findByPk down users pk with
      | inl _ => Next req
      | inr None => Next req
      | inr (Some u) => if isActive u then Next (attach req u) else Next req
      end
    end
  end.

(** Express runs the middleware of a route in order, until one answers. *)
Fixpoint chain (middleware : list (Req -> Outcome)) (req : Req) : Outcome :=
  match middleware with
  | [] => Next req
  | m :: rest =>
    match m req with
    | Next req' => chain rest req'
    | Sent status error message => Sent status error message
    end
  end.

(** A request as it arrives: nothing attached yet. *)
Definition incoming (header : option string) : Req :=
  {| authorization := header; user := None; userId := None; userRole := None |}.

End Auth.

(* ------------------------------------------------------------------ *)
(** ** [GET /api/auth/verify] *)

Module AuthRoutes.

Inductive Verdict : Type :=
| Valid (user : Auth.User)
| Invalid (status : Z) (error message : string).

(** [req.headers.authorization?.replace('Bearer ', '')] *)
Definition token_of (header : option string) : option string :=
  match header with
  | Some h => Some (Auth.replace "Bearer " "" h)
  | None => None
  end.

(** The handler of [/verify]: every thrown error ends in the same 401. *)
Definition verify_route (verify : string -> Auth.Verified) (down : bool)
  (users : list Auth.User) (header : option string) : Verdict :=
  if JS.truthy_str (token_of header) then
    match verify (JS.interp (token_of header)) with
    | Auth.Throws _ => Invalid 401 "InvalidToken" "Token verification failed"
    | Auth.Decoded pk =>
      match Auth.findByPk down users pk with
      | inl _ => Invalid 401 "InvalidToken" "Token verification failed"
      | inr None => Invalid 401 "InvalidToken" "Token is invalid or user is disabled"
      | inr (Some u) =>
        if Auth.isActive u then Valid u
        else Invalid 401 "InvalidToken" "Token is invalid or user is disabled"
      end
    end
  else Invalid 401 "NoToken" "No token provided".

End AuthRoutes.

(* ------------------------------------------------------------------ *)
(** ** The routes behind their middleware *)

Module Guarded.
Import Models TrafficRoutes.

Inductive Served (A : Type) : Type :=
| Refused (status : Z) (error message : string)
| Handled (result : A).

Arguments Refused {A} status error message.
Arguments Handled {A} result.

(** [router.post('/log', authenticate, handler)]; the handler reads
    [req.user.id].  [authenticate] never calls [next()] without attaching the
    user, so the branch without a user is never taken. *)
Definition log_route (verify : string -> Auth.Verified) (auth_down : bool)
  (users : list Auth.User) (header : option string)
  (b : LogBody) (env : Await -> World) (s : Store) : Served LogPc * Store :=
  match Auth.chain [Auth.authenticate verify auth_down users] (Auth.incoming header) with
  | Auth.Sent status error message => (Refused status error message, s)
  | Auth.Next req =>
    match Auth.user req with
    | Some u =>
      (Handled (fst (log_handler (Auth.id u) b env s)), snd (log_handler (Auth.id u) b env s))
    | None => (Handled (log_error TypeError), s)
    end
  end.

(** [router.post('/analyze', authenticate, authorize('admin', 'analyst'), handler)] *)
Definition analyze_route (verify : string -> Auth.Verified) (auth_down : bool)
  (users : list Auth.User) (header : option string)
  (trafficData : TrafficLogAttrs) (gw : Gateway) (w_traffic w_alert : World) (s : Store)
  : Served (Response * list Event) * Store :=
  match Auth.chain [Auth.authenticate verify auth_down users;
                    Auth.authorize ["admin"; "analyst"]] (Auth.incoming header) with
  | Auth.Sent status error message => (Refused status error message, s)
  | Auth.Next _ =>
    (Handled (fst (analyze_handler trafficData gw w_traffic w_alert s)),
     snd (analyze_handler trafficData gw w_traffic w_alert s))
  end.

End Guarded.

(* ------------------------------------------------------------------ *)
(** ** Reading traffic: [GET /api/traffic] and [GET /api/traffic/:id] *)

Module TrafficQueries.
Import Models.

(** The query string of [GET /api/traffic], defaults filled in.  [page]
    and [limit] are parameters written as plain integers, [limit] a positive
    one; [startDate] and [endDate] are what [new Date] made of the
    parameters, in milliseconds. *)
Record Query : Type := {
  page : Z;
  limit : positive;
  isAttack : option string;
  attackType : option string;
  trafficState : option string;
  srcIp : option string;
  dstIp : option string;
  startDate : option Z;
  endDate : option Z
}.

(** One condition of the [where] object on a text column: absent and empty
    parameters add no condition. *)
Definition text_is (param : option string) (column : option string) : bool :=
  if JS.truthy_str param then opt_eqb column param else true.

(** The [where] clause built by the handler, as a test on a row. *)
Definition matches (q : Query) (t : TrafficLog) : bool :=
  (match isAttack q with
   | Some v =>
     match Models.isAttack (log_attrs t) with
     | Some flag => Bool.eqb flag (String.eqb v "true")
     | None => false
     end
   | None => true
   end
   && text_is (attackType q) (Models.attackType (log_attrs t))
   && text_is (trafficState q) (Models.trafficState (log_attrs t))
   && text_is (srcIp q) (Models.srcIp (log_attrs t))
   && text_is (dstIp q) (Models.dstIp (log_attrs t))
   && match startDate q with Some d => d <=? timestamp t | None => true end
   && match endDate q with Some d => timestamp t <=? d | None => true end)%bool.

Record Pagination : Type := {
  total : Z;
  p_page : Z;
  p_limit : Z;
  totalPages : Z
}.

Inductive ListResponse : Type :=
| Listed (data : list TrafficLog) (pagination : Pagination)
| FetchError.

(** [Math.ceil(count / limit)] *)
Definition ceil_div (count : Z) (limit : positive) : Z :=
  (count + Z.pos limit - 1) / Z.pos limit.

(** [GET /api/traffic].  [ordered] is the order in which the database
    returns the matching rows for the requested [sortBy] and [sortOrder].
    The database refuses a negative OFFSET and a [trafficState] that is not
    a value of the column's ENUM. *)
Definition list_traffic (ordered : list TrafficLog -> list TrafficLog) (down : bool)
  (q : Query) (s : Store) : ListResponse :=
  let offset := (page q - 1) * Z.pos (limit q) in
  let bad_state :=
    if JS.truthy_str (trafficState q)
    then in_enum "trafficState" traffic_states (trafficState q) else None in
  if (down || (offset <? 0) || negb (is_null bad_state))%bool then FetchError
  else
    let found := filter (matches q) (traffic_logs s) in
    Listed (firstn (Pos.to_nat (limit q)) (skipn (Z.to_nat offset) (ordered found)))
           {| total := Z.of_nat (List.length found);
              p_page := page q;
              p_limit := Z.pos (limit q);
              totalPages := ceil_div (Z.of_nat (List.length found)) (limit q) |}.

Inductive ItemResponse : Type :=
| Found (traffic : TrafficLog) (alerts : list Alert)
| NotFound
| ItemFetchError.

(** [GET /api/traffic/:id]: the row with its alerts ([include: alerts]). *)
Definition get_traffic (down : bool) (pk : Z) (s : Store) : ItemResponse :=
  if down then ItemFetchError
  else
    match find (fun t => Z.eqb (log_id t) pk) (traffic_logs s) with
    | None => NotFound
    | Some t =>
      Found t (filter (fun a => match trafficLogId (alert_attrs a) with
                                | Some k => Z.eqb k (log_id t)
                                | None => false
                                end) (Models.alerts s))
    end.

End TrafficQueries.

(* ------------------------------------------------------------------ *)
(** ** The dashboard overview *)

Module Dashboard.
Import Models.

Definition count {A : Type} (p : A -> bool) (rows : list A) : Z :=
  Z.of_nat (List.length (filter p rows)).

Definition is_attack_row (t : TrafficLog) : bool :=
  match isAttack (log_attrs t) with
  | Some true => true
  | _ => false
  end.

(** [{ status: 'open' }] *)
Definition is_open (a : Alert) : bool := opt_eqb (status (alert_attrs a)) (Some "open").

(** [{ severity: 5, status: { [Op.ne]: 'resolved' } }]; a null status
    satisfies no comparison. *)
Definition is_critical (a : Alert) : bool :=
  (match severity (alert_attrs a) with Some n => n =? 5 | None => false end
   && match status (alert_attrs a) with
      | Some st => negb (String.eqb st "resolved")
      | None => false
      end)%bool.

(** One entry of [trafficTimeline]; [from] is the start of the interval,
    which the handler renders as a local HH:MM label. *)
Record Bucket : Type := {
  from : Z;
  normal : Z;
  attacks : Z
}.

(** [{ [Op.between]: [intervalStart, intervalEnd] }], both ends included. *)
Definition between (lo hi : Z) (t : TrafficLog) : bool :=
  ((lo <=? timestamp t) && (timestamp t <=? hi))%bool.

(** The body of the loop, for one [i]. *)
Definition bucket (now : Z) (s : Store) (i : Z) : Bucket :=
  let intervalStart := now - i * 5 * 60 * 1000 in
  let intervalEnd := now - (i - 1) * 5 * 60 * 1000 in
  let total := count (between intervalStart intervalEnd) (traffic_logs s) in
  let attacks := count (fun t => (between intervalStart intervalEnd t && is_attack_row t)%bool)
                       (traffic_logs s) in
  {| from := intervalStart; normal := total - attacks; attacks := attacks |}.

Record Overview : Type := {
  traffic_total : Z;
  traffic_attacks : Z;
  alerts_open : Z;
  alerts_critical : Z;
  blocked : Z;
  trafficTimeline : list Bucket
}.

(** [GET /api/dashboard/overview], its queries answered from one state
    of the store; [None] is the 500 answer.  The grouping by attack type is
    left out. *)
Definition overview (down : bool) (now : Z) (s : Store) : option Overview :=
  if down then None
  else
    let last24h := now - 24 * 60 * 60 * 1000 in
    Some {| traffic_total := count (fun t => last24h <=? timestamp t) (traffic_logs s);
            traffic_attacks :=
              count (fun t => ((last24h <=? timestamp t) && is_attack_row t)%bool)
                    (traffic_logs s);
            alerts_open := count is_open (alerts s);
            alerts_critical := count is_critical (alerts s);
            blocked := count active (blocked_ips s);
            trafficTimeline := map (bucket now s) [5; 4; 3; 2; 1; 0] |}.

End Dashboard.

Import Models TrafficRoutes.

(* ------------------------------------------------------------------ *)
(** ** Derived notions *)

(** The handler in direct style: the nesting of its awaits. *)
Definition log_direct (user_id : Z) (b : LogBody) (env : Await -> World) (s : Store)
  : LogPc * Store :=
  match TrafficLog_create (db_down (env at_traffic)) (column_now (env at_traffic))
          (log_traffic_attrs b) s with
  | inl e => (log_error (DbThrown e), s)
  | inr (t, s1) =>
    if alert_due b then
      match Alert_create (db_down (env at_alert)) (log_alert_attrs b t) s1 with
      | inl e => (log_error (DbThrown e), s1)
      | inr (a, s2) =>
        if JS.ge (confidence b) 0.7 then
          match BlockedIP_findOne_active (db_down (env at_find)) (src_ip b) s2 with
          | inl e => (log_error (DbThrown e), s2)
          | inr (Some _) => (log_ok b t [new_alert a; new_traffic t], s2)
          | inr None =>
            match BlockedIP_create (db_down (env at_block)) (column_now (env at_block))
                    (log_block_attrs user_id (env at_block) b) s2 with
            | inl e => (log_error (DbThrown e), s2)
            | inr (_, s3) => (log_ok b t [new_alert a; new_traffic t], s3)
            end
          end
        else (log_ok b t [new_alert a; new_traffic t], s2)
      end
    else (log_ok b t [new_traffic t], s1)
  end.

(** The block that the handler asks the store to create. *)
Definition auto_block (user_id : Z) (w : World) (b : LogBody) : BlockedIPAttrs :=
  BlockedIP_defaults (column_now w) (log_block_attrs user_id w b).

(** A schedule is a list of resumptions; [play] runs it. *)
Fixpoint play (schedule : list (nat * World)) (st : System) : System :=
  match schedule with
  | [] => st
  | (i, w) :: rest => play rest (advance i w (fst st) (snd st))
  end.

Definition responses (st : System) : list (option Response) :=
  map (fun th => response_of (th_pc th)) (fst st).

(** [later] has every row of [earlier], in place, and possibly more. *)
Definition extends (earlier later : Store) : Prop :=
  (exists more, traffic_logs later = (traffic_logs earlier ++ more)%list) /\
  (exists more, alerts later = (alerts earlier ++ more)%list) /\
  (exists more, blocked_ips later = (blocked_ips earlier ++ more)%list).

(** Every alert refers to a sample that is in the store. *)
Definition linked (s : Store) : Prop :=
  forall a, In a (alerts s) ->
  exists t, In t (traffic_logs s) /\ trafficLogId (alert_attrs a) = Some (log_id t).

(** The sample that a suspended handler carries is in the store. *)
Definition holds_sample (s : Store) (pc : LogPc) : Prop :=
  match pc with
  | AwaitAlert t => In t (traffic_logs s)
  | AwaitFindBlock t _ => In t (traffic_logs s)
  | AwaitBlockCreate t _ => In t (traffic_logs s)
  | _ => True
  end.

Definition sound (st : System) : Prop :=
  linked (snd st) /\ Forall (fun th => holds_sample (snd st) (th_pc th)) (fst st).

(** How many samples the timeline shows, over all its intervals. *)
Definition shown (timeline : list Dashboard.Bucket) : Z :=
  fold_right (fun bk rest => Dashboard.normal bk + Dashboard.attacks bk + rest) 0 timeline.

(** The same query for another page. *)
Definition with_page (q : TrafficQueries.Query) (k : Z) : TrafficQueries.Query :=
  {| TrafficQueries.page := k;
     TrafficQueries.limit := TrafficQueries.limit q;
     TrafficQueries.isAttack := TrafficQueries.isAttack q;
     TrafficQueries.attackType := TrafficQueries.attackType q;
     TrafficQueries.trafficState := TrafficQueries.trafficState q;
     TrafficQueries.srcIp := TrafficQueries.srcIp q;
     TrafficQueries.dstIp := TrafficQueries.dstIp q;
     TrafficQueries.startDate := TrafficQueries.startDate q;
     TrafficQueries.endDate := TrafficQueries.endDate q |}.

(** The [data] of an answer; a failed request lists nothing. *)
Definition data_of (r : TrafficQueries.ListResponse) : list TrafficLog :=
  match r with
  | TrafficQueries.Listed data _ => data
  | TrafficQueries.FetchError => []
  end.

(** Latest first: the rows were appended in the order of their timestamps. *)
Definition latest_first (l : list TrafficLog) : list TrafficLog := rev l.

(** The alerts among the broadcasts of a request. *)
Definition raised (emitted : list Event) : list Alert :=
  flat_map (fun e => match e with new_alert a => [a] | new_traffic _ => [] end) emitted.

(** The sequence of traffic_logs.id is ahead of every stored id. *)
Definition ids_below_seq (s : Store) : Prop :=
  forall t, In t (traffic_logs s) -> log_id t < traffic_log_seq s.

(* ------------------------------------------------------------------ *)
(** ** Sample requests, worlds and stores *)

Definition admin : Z := 1.

Definition analyst : Z := 2.

(** The requests of [add-attacks.ps1], with the confidence left open. *)
Definition ddos (c : Q) : LogBody :=
  {| src_ip := Some "192.168.1.100"; dst_ip := Some "192.168.1.1";
     src_port := Some 54321; dst_port := Some 80;
     TrafficRoutes.protocol := Some "TCP"; packet_size := Some 1500;
     is_attack := Some true; predicted_class := Some "DDoS";
     confidence := Some c; state := Some "ACTIVE" |}.

Definition benign : LogBody :=
  {| src_ip := Some "192.168.1.50"; dst_ip := Some "8.8.8.8";
     src_port := Some 12345; dst_port := Some 443;
     TrafficRoutes.protocol := Some "TCP"; packet_size := Some 1200;
     is_attack := Some false; predicted_class := Some "BENIGN";
     confidence := Some 0.94%Q; state := None |}.

Definition probe : LogBody :=
  {| src_ip := Some "192.168.1.150"; dst_ip := Some "192.168.1.10";
     src_port := Some 45678; dst_port := Some 22;
     TrafficRoutes.protocol := Some "TCP"; packet_size := Some 60;
     is_attack := Some true; predicted_class := Some "PortScan";
     confidence := Some 0.82%Q; state := Some "Suspicious" |}.

Definition sloppy : LogBody :=
  {| src_ip := Some "192.168.1.200"; dst_ip := Some "192.168.1.5";
     src_port := None; dst_port := None;
     TrafficRoutes.protocol := Some "TCP"; packet_size := None;
     is_attack := Some true; predicted_class := Some "Brute Force";
     confidence := Some 1.5%Q; state := None |}.

(** The sample and the alert that the DDoS request at confidence 0.95 leaves. *)
Definition ddos_sample : TrafficLog :=
  {| log_id := 1; timestamp := 1000;
     log_attrs := TrafficLog_defaults (log_traffic_attrs (ddos 0.95)) |}.

Definition ddos_alert : Alert :=
  {| alert_id := 1;
     alert_attrs := Alert_defaults (log_alert_attrs (ddos 0.95) ddos_sample) |}.

Definition flow : TrafficLogAttrs :=
  {| srcIp := Some "10.0.0.7"; dstIp := Some "10.0.0.1";
     srcPort := Some 40000; dstPort := Some 443;
     Models.protocol := Some "TCP"; packetSize := Some 512;
     isAttack := None; attackType := None; confidenceScore := None;
     anomalyScore := None; trafficState := None |}.

Definition verdict : Prediction :=
  {| p_is_attack := Some true; p_attack_type := Some "DoS";
     p_confidence := Some 0.97%Q; p_anomaly_score := Some 0.4%Q |}.

Definition up : World := {| db_down := false; date_now := 1000; column_now := 1000 |}.
Definition down : World := {| db_down := true; date_now := 1000; column_now := 1000 |}.

(** A world whose database drops out while the alert is written. *)
Definition outage_at_alert : Await -> World :=
  fun a => match a with at_alert => down | _ => up end.

(** Two requests about the same attacker, in flight together. *)
Definition two_reports : System :=
  ([spawn admin (ddos 0.95); spawn analyst (ddos 0.95)], empty_store).

(** Both handlers pass the pre-check before either has written its block. *)
Definition race : list (nat * World) :=
  let w := calm 1000 at_traffic in
  [(0%nat, w); (0%nat, w); (0%nat, w);
   (1%nat, w); (1%nat, w); (1%nat, w);
   (0%nat, w); (1%nat, w)].

(** A store in which 192.168.1.100 was blocked once and unblocked since. *)
Definition old_block : BlockedIP :=
  {| block_id := 1;
     block_attrs :=
       {| ipAddress := Some "192.168.1.100";
          reason := Some "Automated block: DDoS attack detected";
          blockedBy := Some admin; blockType := Some "temporary";
          blockedAt := Some 100; expiresAt := Some 86400100;
          unblockedAt := Some 500 |} |}.

Definition lifted : Store :=
  {| traffic_logs := []; alerts := []; blocked_ips := [old_block];
     traffic_log_seq := 1; uuid_seq := 2 |}.

Definition harmless : Prediction :=
  {| p_is_attack := Some false; p_attack_type := Some "BENIGN";
     p_confidence := Some 0.94%Q; p_anomaly_score := None |}.

(** The users of [setup-postgres.js], and one whose account was disabled. *)
Definition staff : list Auth.User :=
  [{| Auth.id := 1; Auth.username := "admin"; Auth.role := "admin"; Auth.isActive := true |};
   {| Auth.id := 2; Auth.username := "analyst"; Auth.role := "analyst";
      Auth.isActive := true |};
   {| Auth.id := 3; Auth.username := "viewer"; Auth.role := "viewer";
      Auth.isActive := true |};
   {| Auth.id := 4; Auth.username := "former"; Auth.role := "admin";
      Auth.isActive := false |}].

(** A stand-in for [jwt.verify]: four tokens it accepts, one that has
    expired; everything else is malformed. *)
Definition sample_verify (token : string) : Auth.Verified :=
  if String.eqb token "admin-token" then Auth.Decoded (Some 1)
  else if String.eqb token "analyst-token" then Auth.Decoded (Some 2)
  else if String.eqb token "viewer-token" then Auth.Decoded (Some 3)
  else if String.eqb token "former-token" then Auth.Decoded (Some 4)
  else if String.eqb token "old-token" then Auth.Throws "TokenExpiredError"
  else Auth.Throws "JsonWebTokenError".

(** Three reports served one after the other: two attacks and harmless traffic. *)
Definition busy : Store :=
  snd (log_handler admin benign (calm 3000)
         (snd (log_handler admin (ddos 0.95) (calm 2000)
                 (snd (log_handler admin (ddos 0.59) (calm 1000) empty_store))))).

(** Two rows to the page, no condition. *)
Definition everything : TrafficQueries.Query :=
  {| TrafficQueries.page := 1; TrafficQueries.limit := 2%positive;
     TrafficQueries.isAttack := None; TrafficQueries.attackType := None;
     TrafficQueries.trafficState := None; TrafficQueries.srcIp := None;
     TrafficQueries.dstIp := None; TrafficQueries.startDate := None;
     TrafficQueries.endDate := None |}.

Definition shouting : TrafficQueries.Query :=
  {| TrafficQueries.page := 1; TrafficQueries.limit := 50%positive;
     TrafficQueries.isAttack := Some "TRUE"; TrafficQueries.attackType := None;
     TrafficQueries.trafficState := None; TrafficQueries.srcIp := None;
     TrafficQueries.dstIp := None; TrafficQueries.startDate := None;
     TrafficQueries.endDate := None |}.

(** Two more reports, in flight together on the store that [busy] is. *)
Definition second_wave : System :=
  ([spawn admin probe; spawn analyst (ddos 0.95)], busy).

(* ------------------------------------------------------------------ *)
(** ** Properties of the store operations *)

Lemma opt_eqb_eq (a b : option string) : opt_eqb a b = true <-> a = b.
Proof.
  destruct a as [x|], b as [y|]; simpl; split; intro H;
    try discriminate; try reflexivity.
  - apply String.eqb_eq in H. now subst.
  - inversion H. apply String.eqb_refl.
Qed.

Lemma existsb_has_ip_false (ip : option string) (rows : list BlockedIP) :
  existsb (has_ip ip) rows = false ->
  ~ In ip (map (fun b => ipAddress (block_attrs b)) rows).
Proof.
  induction rows as [|r rows IH]; simpl; intros H Hin; [exact Hin|].
  apply orb_false_iff in H. destruct H as [Hr Hrows].
  destruct Hin as [Heq|Hin].
  - unfold has_ip in Hr. rewrite (proj2 (opt_eqb_eq _ _) Heq) in Hr. discriminate.
  - exact (IH Hrows Hin).
Qed.

Lemma existsb_has_ip_true (ip : option string) (rows : list BlockedIP) (blk : BlockedIP) :
  In blk rows -> ipAddress (block_attrs blk) = ip -> existsb (has_ip ip) rows = true.
Proof.
  intros Hin Hip. apply existsb_exists. exists blk. split; [exact Hin|].
  unfold has_ip. now apply opt_eqb_eq.
Qed.

(** What a successful [TrafficLog.create] has done. *)
Lemma TrafficLog_create_ok down now a s t s' :
  TrafficLog_create down now a s = inr (t, s') ->
  down = false /\ TrafficLog_validate a = None /\
  t = {| log_id := traffic_log_seq s; timestamp := now;
         log_attrs := TrafficLog_defaults a |} /\
  traffic_logs s' = (traffic_logs s ++ [t])%list /\
  alerts s' = alerts s /\ blocked_ips s' = blocked_ips s.
Proof.
  unfold TrafficLog_create.
  destruct (TrafficLog_validate a); [discriminate|].
  destruct down; [discriminate|].
  destruct (TrafficLog_constraints a); [discriminate|].
  intro H. inversion H; subst; clear H. simpl. repeat split; reflexivity.
Qed.

(** What a successful [Alert.create] has done. *)
Lemma Alert_create_ok down a s row s' :
  Alert_create down a s = inr (row, s') ->
  down = false /\
  row = {| alert_id := uuid_seq s; alert_attrs := Alert_defaults a |} /\
  traffic_logs s' = traffic_logs s /\
  alerts s' = (alerts s ++ [row])%list /\ blocked_ips s' = blocked_ips s.
Proof.
  unfold Alert_create.
  destruct (Alert_validate a); [discriminate|].
  destruct down; [discriminate|].
  destruct (Alert_constraints a); [discriminate|].
  intro H. inversion H; subst; clear H. simpl. repeat split; reflexivity.
Qed.

(** A failed create leaves no trace: the functions return the error alone. *)
Lemma BlockedIP_create_ok down now a s row s' :
  BlockedIP_create down now a s = inr (row, s') ->
  down = false /\
  existsb (has_ip (ipAddress a)) (blocked_ips s) = false /\
  row = {| block_id := uuid_seq s; block_attrs := BlockedIP_defaults now a |} /\
  traffic_logs s' = traffic_logs s /\
  alerts s' = alerts s /\ blocked_ips s' = (blocked_ips s ++ [row])%list.
Proof.
  unfold BlockedIP_create, BlockedIP_constraints.
  destruct (BlockedIP_validate a); [discriminate|].
  destruct down; [discriminate|].
  simpl. destruct (in_enum "blockType" block_types (blockType a)); [discriminate|].
  destruct (existsb (has_ip (ipAddress a)) (blocked_ips s)); [discriminate|].
  intro H. inversion H; subst; clear H. simpl. repeat split; reflexivity.
Qed.

(** The unique index rejects a second row for an address that has one. *)
Lemma BlockedIP_create_conflict now a s :
  BlockedIP_validate a = None ->
  in_enum "blockType" block_types (blockType a) = None ->
  existsb (has_ip (ipAddress a)) (blocked_ips s) = true ->
  BlockedIP_create false now a s = inl (UniqueViolation "ipAddress").
Proof.
  intros Hv He Hx. unfold BlockedIP_create, BlockedIP_constraints.
  rewrite Hv. simpl. rewrite He, Hx. reflexivity.
Qed.

(** The alert that [/log] builds passes every check of the Alert model. *)
Lemma log_alert_accepted b t s :
  Alert_create false (log_alert_attrs b t) s =
  inr ({| alert_id := uuid_seq s; alert_attrs := Alert_defaults (log_alert_attrs b t) |},
       {| traffic_logs := traffic_logs s;
          alerts := alerts s ++ [{| alert_id := uuid_seq s;
                                    alert_attrs := Alert_defaults (log_alert_attrs b t) |}];
          blocked_ips := blocked_ips s;
          traffic_log_seq := traffic_log_seq s;
          uuid_seq := uuid_seq s + 1 |}).
Proof.
  unfold Alert_create, Alert_validate, Alert_constraints, log_alert_attrs. simpl.
  destruct (JS.ge (confidence b) 0.9); [reflexivity|].
  destruct (JS.ge (confidence b) 0.7); reflexivity.
Qed.

(** The handler's block for an address that has no row is accepted. *)
Lemma auto_block_accepted user_id w b s ip :
  src_ip b = Some ip -> db_down w = false ->
  existsb (has_ip (Some ip)) (blocked_ips s) = false ->
  BlockedIP_create (db_down w) (column_now w) (log_block_attrs user_id w b) s
  = inr ({| block_id := uuid_seq s; block_attrs := auto_block user_id w b |},
         {| traffic_logs := traffic_logs s;
            alerts := alerts s;
            blocked_ips := blocked_ips s
                           ++ [{| block_id := uuid_seq s;
                                  block_attrs := auto_block user_id w b |}];
            traffic_log_seq := traffic_log_seq s;
            uuid_seq := uuid_seq s + 1 |}).
Proof.
  intros Hip Hup Hfree.
  unfold BlockedIP_create, BlockedIP_validate, BlockedIP_constraints, log_block_attrs.
  cbn -[existsb]. rewrite Hip, Hup. cbn -[existsb]. rewrite Hfree.
  unfold auto_block, log_block_attrs. rewrite Hip. reflexivity.
Qed.

Lemma active_blocks_absent (ip : string) (rows : list BlockedIP) :
  existsb (has_ip (Some ip)) rows = false ->
  filter (fun b => (has_ip (Some ip) b && active b)%bool) rows = [].
Proof.
  induction rows as [|r rows IH]; simpl; intro H; [reflexivity|].
  apply orb_false_iff in H. destruct H as [Hr Hrows].
  rewrite Hr. simpl. exact (IH Hrows).
Qed.

Lemma find_present {A : Type} (p : A -> bool) (l : list A) (x : A) :
  In x l -> p x = true -> exists y, find p l = Some y.
Proof.
  induction l as [|z l IH]; simpl; intros Hin Hp; [contradiction|].
  destruct (p z) eqn:Hz; [eauto|].
  destruct Hin as [Heq|Hin]; [subst; congruence|]. now apply IH.
Qed.

(* ------------------------------------------------------------------ *)
(** ** Comparisons with a threshold *)

Lemma ge_true (c t : Q) : JS.ge (Some c) t = true <-> (t <= c)%Q.
Proof. apply Qle_bool_iff. Qed.

Lemma ge_false (c t : Q) : JS.ge (Some c) t = false <-> (c < t)%Q.
Proof.
  simpl. split; intro H.
  - apply Qnot_le_lt. intro Hle. apply Qle_bool_iff in Hle. congruence.
  - destruct (Qle_bool t c) eqn:E; [|reflexivity].
    apply Qle_bool_iff in E. exfalso. exact (Qlt_not_le _ _ H E).
Qed.

Lemma alert_due_true b c :
  is_attack b = Some true -> confidence b = Some c -> (0.5 <= c)%Q -> alert_due b = true.
Proof.
  intros Hi Hc Hle. unfold alert_due. rewrite Hi, Hc. simpl.
  now apply Qle_bool_iff.
Qed.

Lemma alert_due_false b :
  is_attack b <> Some true \/ confidence b = None \/
  (exists c, confidence b = Some c /\ (c < 0.5)%Q) ->
  alert_due b = false.
Proof.
  unfold alert_due. intros [Hi|[Hc|(c & Hc & Hlt)]].
  - destruct (is_attack b) as [[|]|]; [congruence|reflexivity|reflexivity].
  - rewrite Hc. apply andb_false_r.
  - rewrite Hc. rewrite (proj2 (ge_false c 0.5) Hlt). apply andb_false_r.
Qed.

(* ------------------------------------------------------------------ *)
(** ** The [/log] handler, served alone *)

Section ServedAlone.

Variables (user_id : Z) (b : LogBody) (env : Await -> World) (s : Store).

Lemma log_handler_direct :
  log_handler user_id b env s = log_direct user_id b env s.
Proof.
  unfold log_handler, log_direct. cbn [fst snd await_of log_step].
  destruct (TrafficLog_create _ _ _ s) as [e|[t s1]]; [reflexivity|].
  destruct (alert_due b); [|reflexivity].
  cbn [fst snd await_of log_step].
  destruct (Alert_create _ _ s1) as [e|[a s2]]; [reflexivity|].
  destruct (JS.ge (confidence b) 0.7); [|reflexivity].
  cbn [fst snd await_of log_step].
  destruct (BlockedIP_findOne_active _ _ s2) as [e|[found|]]; reflexivity.
Qed.

(** Four awaits are enough: the handler always answers. *)
Lemma log_handler_responds :
  exists r emitted, fst (log_handler user_id b env s) = Responded r emitted.
Proof.
  rewrite log_handler_direct. unfold log_direct, log_ok, log_error.
  destruct (TrafficLog_create _ _ _ s) as [e|[t s1]]; [simpl; eauto|].
  destruct (alert_due b); [|simpl; eauto].
  destruct (Alert_create _ _ s1) as [e|[a s2]]; [simpl; eauto|].
  destruct (JS.ge (confidence b) 0.7); [|simpl; eauto].
  destruct (BlockedIP_findOne_active _ _ s2) as [e|[found|]]; try (simpl; eauto).
  destruct (BlockedIP_create _ _ _ s2) as [e|[blk s3]]; simpl; eauto.
Qed.

(** The two answers of [/log]. *)
Lemma log_handler_answer r emitted :
  fst (log_handler user_id b env s) = Responded r emitted ->
  (exists t created, r = LogOk t created) \/
  (exists e, r = Err500 "LogError" "Failed to log traffic" (DbThrown e) /\ emitted = []).
Proof.
  rewrite log_handler_direct. unfold log_direct, log_ok, log_error.
  destruct (TrafficLog_create _ _ _ s) as [e|[t s1]];
    [simpl; intro H; inversion H; right; eauto|].
  destruct (alert_due b); [|simpl; intro H; inversion H; left; eauto].
  destruct (Alert_create _ _ s1) as [e|[a s2]];
    [simpl; intro H; inversion H; right; eauto|].
  destruct (JS.ge (confidence b) 0.7); [|simpl; intro H; inversion H; left; eauto].
  destruct (BlockedIP_findOne_active _ _ s2) as [e|[found|]];
    [simpl; intro H; inversion H; right; eauto
    |simpl; intro H; inversion H; left; eauto|].
  destruct (BlockedIP_create _ _ _ s2) as [e|[row s3]];
    simpl; intro H; inversion H; [right|left]; eauto.
Qed.

(** The sample written first is still the last row of [traffic_logs] when
    the handler answers, whatever happened afterwards. *)
Lemma log_handler_traffic_logs t s1 :
  TrafficLog_create (db_down (env at_traffic)) (column_now (env at_traffic))
    (log_traffic_attrs b) s = inr (t, s1) ->
  traffic_logs (snd (log_handler user_id b env s)) = (traffic_logs s ++ [t])%list.
Proof.
  intro Ht. rewrite log_handler_direct. unfold log_direct. rewrite Ht.
  apply TrafficLog_create_ok in Ht. destruct Ht as (_ & _ & _ & Hl & _).
  destruct (alert_due b); [|exact Hl].
  destruct (Alert_create _ _ s1) as [e|[a s2]] eqn:Ha; [exact Hl|].
  apply Alert_create_ok in Ha. destruct Ha as (_ & _ & Hl2 & _).
  destruct (JS.ge (confidence b) 0.7); [|simpl; congruence].
  destruct (BlockedIP_findOne_active _ _ s2) as [e|[found|]]; try (simpl; congruence).
  destruct (BlockedIP_create _ _ _ s2) as [e|[row s3]] eqn:Hb; [simpl; congruence|].
  apply BlockedIP_create_ok in Hb. destruct Hb as (_ & _ & _ & Hl3 & _).
  simpl. congruence.
Qed.

(** The alerts table after a request whose sample was stored, with the
    database reachable when the alert is written. *)
Lemma log_handler_alerts t s1 :
  TrafficLog_create (db_down (env at_traffic)) (column_now (env at_traffic))
    (log_traffic_attrs b) s = inr (t, s1) ->
  db_down (env at_alert) = false ->
  alerts (snd (log_handler user_id b env s)) =
  if alert_due b
  then (alerts s ++ [{| alert_id := uuid_seq s1;
                        alert_attrs := Alert_defaults (log_alert_attrs b t) |}])%list
  else alerts s.
Proof.
  intros Hc Hup. rewrite log_handler_direct. unfold log_direct. rewrite Hc, Hup.
  apply TrafficLog_create_ok in Hc. destruct Hc as (_ & _ & _ & _ & Ha & _).
  destruct (alert_due b); [|exact Ha].
  rewrite log_alert_accepted, <- Ha.
  destruct (JS.ge (confidence b) 0.7); [|reflexivity].
  destruct (BlockedIP_findOne_active _ _ _) as [e|[found|]]; try reflexivity.
  destruct (BlockedIP_create _ _ _ _) as [e|[row s3]] eqn:Hb; [reflexivity|].
  apply BlockedIP_create_ok in Hb. destruct Hb as (_ & _ & _ & _ & Hb & _).
  simpl in *. exact Hb.
Qed.

(** The blocked_ips table after a request served alone: untouched, or one
    row longer, and then the policy fired and the pre-check found nothing. *)
Lemma log_handler_blocked_ips :
  blocked_ips (snd (log_handler user_id b env s)) = blocked_ips s \/
  exists row,
    blocked_ips (snd (log_handler user_id b env s)) = (blocked_ips s ++ [row])%list /\
    block_attrs row = auto_block user_id (env at_block) b /\
    alert_due b = true /\ JS.ge (confidence b) 0.7 = true /\
    find (fun x => (has_ip (src_ip b) x && active x)%bool) (blocked_ips s) = None.
Proof.
  rewrite log_handler_direct. unfold log_direct.
  destruct (TrafficLog_create _ _ _ s) as [e|[t s1]] eqn:Ht; [now left|].
  apply TrafficLog_create_ok in Ht. destruct Ht as (_ & _ & _ & _ & _ & Hb1).
  destruct (alert_due b) eqn:Hdue; [|now left].
  destruct (Alert_create _ _ s1) as [e|[a s2]] eqn:Ha; [now left|].
  apply Alert_create_ok in Ha. destruct Ha as (_ & _ & _ & _ & Hb2).
  destruct (JS.ge (confidence b) 0.7) eqn:H7; [|left; simpl; congruence].
  unfold BlockedIP_findOne_active.
  destruct (db_down (env at_find)); [left; simpl; congruence|].
  destruct (find _ (blocked_ips s2)) as [found|] eqn:Hfind; [left; simpl; congruence|].
  destruct (BlockedIP_create _ _ _ s2) as [e|[row s3]] eqn:Hc; [left; simpl; congruence|].
  apply BlockedIP_create_ok in Hc. destruct Hc as (_ & _ & Hrow & _ & _ & Hb3).
  right. exists row. simpl. rewrite Hb3, Hb2, Hb1.
  split; [reflexivity|]. split; [now rewrite Hrow|].
  split; [reflexivity|]. split; [reflexivity|]. now rewrite <- Hb1, <- Hb2.
Qed.

(** The auto-block is written when nothing stands in its way. *)
Lemma log_handler_blocks t s1 c :
  TrafficLog_create (db_down (env at_traffic)) (column_now (env at_traffic))
    (log_traffic_attrs b) s = inr (t, s1) ->
  db_down (env at_alert) = false -> db_down (env at_find) = false ->
  db_down (env at_block) = false ->
  is_attack b = Some true -> confidence b = Some c -> (0.7 <= c)%Q ->
  existsb (has_ip (src_ip b)) (blocked_ips s) = false ->
  exists row,
    blocked_ips (snd (log_handler user_id b env s)) = (blocked_ips s ++ [row])%list /\
    block_attrs row = auto_block user_id (env at_block) b.
Proof.
  intros Ht Hup1 Hup2 Hup3 Hi Hconf Hle Hfree.
  rewrite log_handler_direct. unfold log_direct. rewrite Ht, Hup1, Hup2, Hup3.
  assert (Hsrc : exists ip, src_ip b = Some ip).
  { apply TrafficLog_create_ok in Ht. destruct Ht as (_ & Hv & _).
    unfold TrafficLog_validate, log_traffic_attrs in Hv. simpl in Hv.
    destruct (src_ip b) as [ip|]; [eauto|discriminate]. }
  destruct Hsrc as [ip Hip].
  apply TrafficLog_create_ok in Ht. destruct Ht as (_ & _ & _ & _ & _ & Hb1).
  rewrite (alert_due_true b c Hi Hconf); [|lra].
  rewrite log_alert_accepted.
  rewrite Hconf, (proj2 (ge_true c 0.7) Hle).
  unfold BlockedIP_findOne_active. cbn [blocked_ips].
  assert (Hnone : find (fun x => (has_ip (src_ip b) x && active x)%bool) (blocked_ips s1)
                  = None).
  { rewrite Hb1. clear -Hfree. induction (blocked_ips s) as [|x l IH]; [reflexivity|].
    simpl in *. apply orb_false_iff in Hfree. destruct Hfree as [Hx Hl].
    rewrite Hx. simpl. apply IH. exact Hl. }
  rewrite Hnone.
  unfold BlockedIP_create, BlockedIP_validate, BlockedIP_constraints, log_block_attrs.
  cbn -[existsb]. rewrite Hip. cbn -[existsb]. rewrite Hb1, <- Hip, Hfree.
  eexists. cbn. split; reflexivity.
Qed.

End ServedAlone.

(* ------------------------------------------------------------------ *)
(** ** The [/log] handler, step by step *)

(** *** What one step does to each table *)

(** The result of a step is one of its branches: [same] closes the
    branches that leave the table alone. *)
Ltac same := let H := fresh in intro H; inversion H; subst; now left.

Lemma log_step_traffic_logs user_id b w pc s pc' s' :
  log_step user_id b w pc s = (pc', s') ->
  traffic_logs s' = traffic_logs s \/
  exists t, pc = AwaitTrafficLog /\ traffic_logs s' = (traffic_logs s ++ [t])%list.
Proof.
  destruct pc as [|t|t a|t a|r ev]; simpl.
  - destruct (TrafficLog_create _ _ _ s) as [e|[t s1]] eqn:Hc; [same|].
    apply TrafficLog_create_ok in Hc. destruct Hc as (_ & _ & _ & Ht & _).
    destruct (alert_due b); intro H; inversion H; subst; right; eauto.
  - destruct (Alert_create _ _ s) as [e|[row s1]] eqn:Hc; [same|].
    apply Alert_create_ok in Hc. destruct Hc as (_ & _ & Ht & _).
    destruct (JS.ge (confidence b) 0.7); same.
  - destruct (BlockedIP_findOne_active _ _ s) as [e|[found|]]; same.
  - destruct (BlockedIP_create _ _ _ s) as [e|[row s1]] eqn:Hc; [same|].
    apply BlockedIP_create_ok in Hc. destruct Hc as (_ & _ & _ & Ht & _). same.
  - same.
Qed.

Lemma log_step_blocked_ips user_id b w pc s pc' s' :
  log_step user_id b w pc s = (pc', s') ->
  blocked_ips s' = blocked_ips s \/
  exists row, blocked_ips s' = (blocked_ips s ++ [row])%list /\
              ipAddress (block_attrs row) = src_ip b /\
              existsb (has_ip (src_ip b)) (blocked_ips s) = false.
Proof.
  destruct pc as [|t|t a|t a|r ev]; simpl.
  - destruct (TrafficLog_create _ _ _ s) as [e|[t s1]] eqn:Hc; [same|].
    apply TrafficLog_create_ok in Hc. destruct Hc as (_ & _ & _ & _ & _ & Hb).
    destruct (alert_due b); same.
  - destruct (Alert_create _ _ s) as [e|[row s1]] eqn:Hc; [same|].
    apply Alert_create_ok in Hc. destruct Hc as (_ & _ & _ & _ & Hb).
    destruct (JS.ge (confidence b) 0.7); same.
  - destruct (BlockedIP_findOne_active _ _ s) as [e|[found|]]; same.
  - destruct (BlockedIP_create _ _ _ s) as [e|[row s1]] eqn:Hc; [same|].
    apply BlockedIP_create_ok in Hc. destruct Hc as (_ & Hx & Hrow & _ & _ & Hb).
    intro H; inversion H; subst pc' s'. right. exists row.
    split; [exact Hb|]. rewrite Hrow. split; [reflexivity|exact Hx].
  - same.
Qed.

(** *** The unique index survives every step *)

Lemma NoDup_snoc {A : Type} (l : list A) (x : A) :
  NoDup l -> ~ In x l -> NoDup (l ++ [x]).
Proof.
  induction l as [|y l IH]; simpl; intros Hl Hx.
  - constructor; [intros []|constructor].
  - inversion Hl as [|? ? Hy Hl']; subst. constructor.
    + rewrite in_app_iff. simpl. intros [Hin|[Heq|[]]]; [exact (Hy Hin)|].
      apply Hx. now left.
    + apply IH; [exact Hl'|]. intro Hin. apply Hx. now right.
Qed.

Lemma log_step_unique_ips user_id b w pc s :
  unique_ips s -> unique_ips (snd (log_step user_id b w pc s)).
Proof.
  intro Hu. destruct (log_step user_id b w pc s) as [pc' s'] eqn:Hs. simpl.
  apply log_step_blocked_ips in Hs. unfold unique_ips in *.
  destruct Hs as [Heq|(row & Heq & Hip & Hfresh)]; rewrite Heq; [exact Hu|].
  rewrite map_app. simpl. rewrite Hip.
  apply existsb_has_ip_false in Hfresh.
  apply NoDup_snoc; assumption.
Qed.

(** Under the unique index an address has at most one row. *)
Lemma filter_has_ip_absent (ip : option string) (rows : list BlockedIP) :
  ~ In ip (map (fun b => ipAddress (block_attrs b)) rows) ->
  filter (has_ip ip) rows = [].
Proof.
  induction rows as [|r rows IH]; simpl; intro Hnin; [reflexivity|].
  destruct (has_ip ip r) eqn:Hr.
  - exfalso. apply Hnin. left. now apply opt_eqb_eq.
  - apply IH. intro Hin. apply Hnin. now right.
Qed.

Lemma unique_ips_one_row (s : Store) (ip : option string) :
  unique_ips s -> (List.length (filter (has_ip ip) (blocked_ips s)) <= 1)%nat.
Proof.
  unfold unique_ips. induction (blocked_ips s) as [|r rows IH]; simpl; intro Hu; [lia|].
  inversion Hu as [|? ? Hr Hrows]; subst.
  destruct (has_ip ip r) eqn:Hip.
  - apply opt_eqb_eq in Hip. rewrite <- Hip.
    rewrite (filter_has_ip_absent _ _ Hr). simpl. lia.
  - apply IH. exact Hrows.
Qed.

Lemma filter_and_length {A : Type} (p q : A -> bool) (l : list A) :
  (List.length (filter (fun x => (p x && q x)%bool) l) <= List.length (filter p l))%nat.
Proof.
  induction l as [|x l IH]; simpl; [lia|].
  destruct (p x), (q x); simpl; lia.
Qed.

Lemma unique_ips_one_active (s : Store) (ip : string) :
  unique_ips s -> (List.length (active_blocks ip s) <= 1)%nat.
Proof.
  intro Hu. unfold active_blocks.
  pose proof (filter_and_length (has_ip (Some ip)) active (blocked_ips s)).
  pose proof (unique_ips_one_row s (Some ip) Hu). lia.
Qed.

(** No active block is found for an address whose only row is unblocked. *)
Lemma find_active_unblocked (s : Store) (ip : option string) (blk : BlockedIP) :
  unique_ips s -> In blk (blocked_ips s) ->
  ipAddress (block_attrs blk) = ip -> active blk = false ->
  find (fun b => (has_ip ip b && active b)%bool) (blocked_ips s) = None.
Proof.
  unfold unique_ips. induction (blocked_ips s) as [|r rows IH]; simpl;
    intros Hu Hin Hip Hact; [reflexivity|].
  inversion Hu as [|? ? Hr Hrows]; subst.
  destruct Hin as [Heq|Hin].
  - subst r. rewrite Hact, andb_false_r.
    pose proof (filter_has_ip_absent _ _ Hr) as Hnone.
    clear -Hnone. induction rows as [|x rows IH]; simpl in *; [reflexivity|].
    destruct (has_ip (ipAddress (block_attrs blk)) x); [discriminate|].
    simpl. apply IH. exact Hnone.
  - destruct (has_ip (ipAddress (block_attrs blk)) r) eqn:Hx.
    + exfalso. apply opt_eqb_eq in Hx. apply Hr. rewrite Hx.
      apply in_map_iff. exists blk. split; [reflexivity|exact Hin].
    + simpl. apply IH; try assumption. reflexivity.
Qed.

(* ------------------------------------------------------------------ *)
(** ** Requests in flight *)

Lemma advance_unique_ips i w ts s :
  unique_ips s -> unique_ips (snd (advance i w ts s)).
Proof.
  revert i. induction ts as [|th rest IH]; intros i Hu.
  - destruct i; exact Hu.
  - destruct i as [|j]; simpl.
    + pose proof (log_step_unique_ips (th_user th) (th_body th) w (th_pc th) s Hu) as H.
      destruct (log_step (th_user th) (th_body th) w (th_pc th) s). exact H.
    + specialize (IH j Hu). destruct (advance j w rest s). exact IH.
Qed.

Lemma sys_step_unique_ips st st' :
  sys_step st st' -> unique_ips (snd st) -> unique_ips (snd st').
Proof.
  intros Hstep Hu. destruct Hstep as [u b ts s|i w ts s]; simpl in *.
  - exact Hu.
  - now apply advance_unique_ips.
Qed.

Lemma reachable_unique_ips init st :
  unique_ips (snd init) -> reachable init st -> unique_ips (snd st).
Proof.
  intros Hu Hr. induction Hr as [|mid final _ IH Hstep]; [exact Hu|].
  exact (sys_step_unique_ips _ _ Hstep IH).
Qed.

Lemma play_reachable schedule init st :
  reachable init st -> reachable init (play schedule st).
Proof.
  revert st. induction schedule as [|[i w] rest IH]; intros st Hr; simpl; [exact Hr|].
  apply IH. apply reach_step with (mid := st); [exact Hr|].
  destruct st as [ts s]. apply resume.
Qed.

(* ------------------------------------------------------------------ *)
(** ** Alert policy of [/log] *)

(** C1. On the pre-classified logging path, once the sample is stored, an
    alert is written exactly when the attack flag is [true] and a confidence of
    at least 0.50 is present; a false or absent flag, an absent confidence or
    a confidence below 0.50 write none.  The alert written is linked to the
    sample and has severity 5 from 0.90 on, 4 on [0.70, 0.90) and 3 on
    [0.50, 0.70): each boundary belongs to the higher tier. *)
Theorem C1_alert_iff_attack_and_confidence
  (user_id : Z) (b : LogBody) (env : Await -> World) (s s1 : Store) (t : TrafficLog) :
  TrafficLog_create (db_down (env at_traffic)) (column_now (env at_traffic))
    (log_traffic_attrs b) s = inr (t, s1) ->
  db_down (env at_alert) = false ->
  (forall c, is_attack b = Some true -> confidence b = Some c -> (0.5 <= c)%Q ->
     exists a,
       alerts (snd (log_handler user_id b env s)) = (alerts s ++ [a])%list /\
       trafficLogId (alert_attrs a) = Some (log_id t) /\
       ((0.9 <= c)%Q -> severity (alert_attrs a) = Some 5) /\
       ((0.7 <= c)%Q -> (c < 0.9)%Q -> severity (alert_attrs a) = Some 4) /\
       ((c < 0.7)%Q -> severity (alert_attrs a) = Some 3)) /\
  (is_attack b <> Some true \/ confidence b = None \/
   (exists c, confidence b = Some c /\ (c < 0.5)%Q) ->
   alerts (snd (log_handler user_id b env s)) = alerts s).
Proof.
  intros Hc Hup. rewrite (log_handler_alerts user_id b env s t s1 Hc Hup). split.
  - intros c Hi Hconf Hle. rewrite (alert_due_true b c Hi Hconf Hle).
    eexists. split; [reflexivity|]. simpl. rewrite Hconf.
    split; [reflexivity|].
    destruct (JS.ge (Some c) 0.9) eqn:H9; [apply ge_true in H9|apply ge_false in H9];
    (destruct (JS.ge (Some c) 0.7) eqn:H7; [apply ge_true in H7|apply ge_false in H7]);
    repeat split; intros; try reflexivity; exfalso; lra.
  - intro Hno. now rewrite (alert_due_false b Hno).
Qed.

(** The DDoS request of [add-attacks.ps1] (confidence 0.59) gets a severity-3 alert. *)
Lemma C1_witness :
  exists a, alerts (snd (log_handler admin (ddos 0.59) (calm 1000) empty_store)) = [a] /\
            severity (alert_attrs a) = Some 3.
Proof.
  destruct (C1_alert_iff_attack_and_confidence admin (ddos 0.59) (calm 1000)
              empty_store _ _ eq_refl eq_refl) as [Hyes _].
  destruct (Hyes 0.59%Q eq_refl eq_refl) as (a & Ha & _ & _ & _ & H3).
  - unfold Qle; simpl; lia.
  - exists a. split; [exact Ha|]. apply H3. unfold Qlt; simpl; lia.
Defined.

(** The tier label of [/log] switches at 0.80, not at 0.90: a confidence of
    0.8999 lies in [0.50, 0.90) and its alert is labelled CRITICAL, not HIGH. *)
Lemma C2_counterexample :
  (0.5 <= 0.8999)%Q /\ (0.8999 < 0.9)%Q /\
  exists a, alerts (snd (log_handler admin (ddos 0.8999) (calm 1000) empty_store)) = [a] /\
            alertType (alert_attrs a) = Some "CRITICAL" /\
            alertType (alert_attrs a) <> Some "HIGH" /\
            severity (alert_attrs a) = Some 4.
Proof.
  split; [unfold Qle; simpl; lia|]. split; [unfold Qlt; simpl; lia|].
  eexists. split; [vm_compute; reflexivity|]. simpl.
  split; [reflexivity|]. split; [discriminate|reflexivity].
Qed.

(** C2. For every alert written by the pre-classified logging
    path, the tier label [alertType] is CRITICAL exactly when the confidence
    is at least 0.80 and HIGH for every confidence in [0.50, 0.80). *)
Theorem C2_tier_switches_at_080
  (user_id : Z) (b : LogBody) (env : Await -> World) (s s1 : Store) (t : TrafficLog)
  (c : Q) :
  TrafficLog_create (db_down (env at_traffic)) (column_now (env at_traffic))
    (log_traffic_attrs b) s = inr (t, s1) ->
  db_down (env at_alert) = false ->
  is_attack b = Some true -> confidence b = Some c -> (0.5 <= c)%Q ->
  exists a,
    alerts (snd (log_handler user_id b env s)) = (alerts s ++ [a])%list /\
    (alertType (alert_attrs a) = Some "CRITICAL" <-> (0.8 <= c)%Q) /\
    (alertType (alert_attrs a) = Some "HIGH" <-> (c < 0.8)%Q).
Proof.
  intros Hc Hup Hi Hconf Hle.
  rewrite (log_handler_alerts user_id b env s t s1 Hc Hup).
  rewrite (alert_due_true b c Hi Hconf Hle).
  eexists. split; [reflexivity|]. simpl. rewrite Hconf.
  destruct (JS.ge (Some c) 0.8) eqn:H8; [apply ge_true in H8|apply ge_false in H8];
    split; split; intro H; try reflexivity; try discriminate; try assumption;
    exfalso; lra.
Qed.

(** At exactly 0.90 the label is CRITICAL. *)
Lemma C2_witness :
  exists a, alerts (snd (log_handler admin (ddos 0.9) (calm 1000) empty_store)) = [a] /\
            alertType (alert_attrs a) = Some "CRITICAL".
Proof.
  destruct (C2_tier_switches_at_080 admin (ddos 0.9) (calm 1000) empty_store _ _ 0.9%Q
              eq_refl eq_refl eq_refl eq_refl) as (a & Ha & Hcrit & _).
  - unfold Qle; simpl; lia.
  - exists a. split; [exact Ha|]. apply Hcrit. unfold Qle; simpl; lia.
Defined.

(* ------------------------------------------------------------------ *)
(** ** Auto-block of [/log] *)

(** C3. On the pre-classified logging path a BlockedIP row for the source
    address is written only when the alert was written with a confidence of at
    least 0.70 and no active block (unblockedAt null) exists for the address;
    its expiresAt is the time of the create call plus 24 hours; with the
    confidence absent or below 0.70 no BlockedIP is written; with the
    database reachable and no row for the address, the block is written.
    Also between other requests, a step of the handler writes a block only
    for the source address and only when the address has no row. *)
Theorem C3_auto_block_guarded
  (user_id : Z) (b : LogBody) (env : Await -> World) (s : Store) :
  (confidence b = None \/ (exists c, confidence b = Some c /\ (c < 0.7)%Q) ->
   blocked_ips (snd (log_handler user_id b env s)) = blocked_ips s) /\
  ((exists blk, In blk (blocked_ips s) /\ ipAddress (block_attrs blk) = src_ip b /\
                unblockedAt (block_attrs blk) = None) ->
   blocked_ips (snd (log_handler user_id b env s)) = blocked_ips s) /\
  (blocked_ips (snd (log_handler user_id b env s)) = blocked_ips s \/
   exists row,
     blocked_ips (snd (log_handler user_id b env s)) = (blocked_ips s ++ [row])%list /\
     ipAddress (block_attrs row) = src_ip b /\
     expiresAt (block_attrs row) = Some (date_now (env at_block) + 24 * 60 * 60 * 1000) /\
     blockedAt (block_attrs row) = Some (column_now (env at_block)) /\
     unblockedAt (block_attrs row) = None) /\
  (forall t s1 c,
     TrafficLog_create (db_down (env at_traffic)) (column_now (env at_traffic))
       (log_traffic_attrs b) s = inr (t, s1) ->
     (forall a, db_down (env a) = false) ->
     is_attack b = Some true -> confidence b = Some c -> (0.7 <= c)%Q ->
     existsb (has_ip (src_ip b)) (blocked_ips s) = false ->
     exists row,
       blocked_ips (snd (log_handler user_id b env s)) = (blocked_ips s ++ [row])%list /\
       ipAddress (block_attrs row) = src_ip b /\
       expiresAt (block_attrs row) = Some (date_now (env at_block) + 24 * 60 * 60 * 1000)) /\
  (forall w pc,
     blocked_ips (snd (log_step user_id b w pc s)) = blocked_ips s \/
     exists row,
       blocked_ips (snd (log_step user_id b w pc s)) = (blocked_ips s ++ [row])%list /\
       ipAddress (block_attrs row) = src_ip b /\
       existsb (has_ip (src_ip b)) (blocked_ips s) = false).
Proof.
  pose proof (log_handler_blocked_ips user_id b env s) as Hcases.
  split; [|split; [|split; [|split]]].
  5: {
    intros w pc. destruct (log_step user_id b w pc s) as [pc' s'] eqn:Hs.
    exact (log_step_blocked_ips user_id b w pc s pc' s' Hs). }
  - intros Hlow. destruct Hcases as [Hsame|(row & _ & _ & _ & H7 & _)]; [exact Hsame|].
    exfalso. destruct Hlow as [Hnone|(c & Hc & Hlt)].
    + rewrite Hnone in H7. discriminate.
    + rewrite Hc in H7. apply ge_true in H7. lra.
  - intros (blk & Hin & Hip & Hact).
    destruct Hcases as [Hsame|(row & _ & _ & _ & _ & Hfind)]; [exact Hsame|].
    exfalso. apply (find_none _ _ Hfind) in Hin.
    unfold has_ip, active in Hin.
    rewrite (proj2 (opt_eqb_eq _ _) Hip), Hact in Hin. discriminate.
  - destruct Hcases as [Hsame|(row & Happ & Hrow & _)]; [now left|].
    right. exists row. rewrite Hrow. repeat split; try reflexivity. exact Happ.
  - intros t s1 c Ht Hup Hi Hconf Hle Hfree.
    destruct (log_handler_blocks user_id b env s t s1 c Ht (Hup _) (Hup _) (Hup _)
                Hi Hconf Hle Hfree) as (row & Happ & Hrow).
    exists row. rewrite Hrow. repeat split; try reflexivity. exact Happ.
Qed.

(** The DDoS request at confidence 0.95 on an empty store: one block, for
    192.168.1.100, expiring 24 hours after the call at time 1000. *)
Lemma C3_witness :
  exists row,
    blocked_ips (snd (log_handler admin (ddos 0.95) (calm 1000) empty_store)) = [row] /\
    ipAddress (block_attrs row) = Some "192.168.1.100" /\
    expiresAt (block_attrs row) = Some 86401000.
Proof.
  destruct (C3_auto_block_guarded admin (ddos 0.95) (calm 1000) empty_store)
    as (_ & _ & _ & Hpos & _).
  apply (Hpos _ _ 0.95%Q eq_refl).
  - intro a. reflexivity.
  - reflexivity.
  - reflexivity.
  - unfold Qle; simpl; lia.
  - reflexivity.
Defined.

(* ------------------------------------------------------------------ *)
(** ** Duplicate block attempts *)

(** A race between two requests for the same address ends with one active
    block, but the request that loses the race is answered with a LogError:
    the conflict on the unique index is an ingestion failure, not a no-op. *)
Lemma C4_counterexample :
  reachable two_reports (play race two_reports) /\
  exists ok,
    responses (play race two_reports) =
    [Some (LogOk ok (Some true));
     Some (Err500 "LogError" "Failed to log traffic"
             (DbThrown (UniqueViolation "ipAddress")))] /\
  List.length (active_blocks "192.168.1.100" (snd (play race two_reports))) = 1%nat /\
  List.length (traffic_logs (snd (play race two_reports))) = 2%nat /\
  List.length (alerts (snd (play race two_reports))) = 2%nat.
Proof.
  split; [apply play_reachable, reach_init|].
  eexists. split; [vm_compute; reflexivity|].
  split; [|split]; vm_compute; reflexivity.
Qed.

(** C4. At every state reachable from a store that satisfies the
    unique index, an address has at most one active BlockedIP.  A repeated
    block attempt for an address with an active block is a no-op inside a
    successful ingestion.  A duplicate-create conflict is not tolerated: the
    create is refused by the unique index, no second row is written, and the
    request is answered with a LogError.  Accepted or refused, a create for
    an address that was never unblocked leaves exactly one active block for
    that address. *)
Theorem C4_one_active_block_conflict_fails :
  (forall (init st : System) (ip : string),
     unique_ips (snd init) -> reachable init st ->
     (List.length (active_blocks ip (snd st)) <= 1)%nat) /\
  (forall user_id b w t a s blk,
     In blk (blocked_ips s) -> ipAddress (block_attrs blk) = src_ip b ->
     unblockedAt (block_attrs blk) = None -> db_down w = false ->
     log_step user_id b w (AwaitFindBlock t a) s
     = (log_ok b t [new_alert a; new_traffic t], s)) /\
  (forall user_id b w t a s ip,
     src_ip b = Some ip -> existsb (has_ip (Some ip)) (blocked_ips s) = true ->
     db_down w = false ->
     log_step user_id b w (AwaitBlockCreate t a) s
     = (log_error (DbThrown (UniqueViolation "ipAddress")), s)) /\
  (forall user_id b w t a s ip,
     unique_ips s -> src_ip b = Some ip -> db_down w = false ->
     (forall blk, In blk (blocked_ips s) -> ipAddress (block_attrs blk) = Some ip ->
                  unblockedAt (block_attrs blk) = None) ->
     List.length
       (active_blocks ip (snd (log_step user_id b w (AwaitBlockCreate t a) s))) = 1%nat).
Proof.
  assert (Hconflict : forall user_id b w t a s ip,
     src_ip b = Some ip -> existsb (has_ip (Some ip)) (blocked_ips s) = true ->
     db_down w = false ->
     log_step user_id b w (AwaitBlockCreate t a) s
     = (log_error (DbThrown (UniqueViolation "ipAddress")), s)).
  { intros user_id b w t a s ip Hip Hx Hup. simpl. rewrite Hup.
    rewrite BlockedIP_create_conflict; try reflexivity.
    + unfold BlockedIP_validate, log_block_attrs. simpl. rewrite Hip. reflexivity.
    + unfold log_block_attrs. simpl. rewrite Hip. exact Hx. }
  split; [|split; [|split; [exact Hconflict|]]].
  3: {
    intros user_id b w t a s ip Hu Hip Hup Hlive.
    destruct (existsb (has_ip (Some ip)) (blocked_ips s)) eqn:Hx.
    - rewrite (Hconflict user_id b w t a s ip Hip Hx Hup). simpl.
      pose proof (unique_ips_one_active s ip Hu) as Hle.
      apply existsb_exists in Hx. destruct Hx as (blk & Hin & Hblk).
      assert (Hmem : In blk (active_blocks ip s)).
      { apply filter_In. split; [exact Hin|]. rewrite Hblk. unfold active.
        apply opt_eqb_eq in Hblk. rewrite (Hlive blk Hin Hblk). reflexivity. }
      destruct (active_blocks ip s) as [|x [|y l]]; simpl in *; [contradiction|lia|lia].
    - cbn [log_step]. rewrite (auto_block_accepted user_id w b s ip Hip Hup Hx).
      cbn [snd]. unfold active_blocks. cbn [blocked_ips].
      rewrite filter_app, (active_blocks_absent ip _ Hx).
      unfold auto_block, log_block_attrs, has_ip, active. rewrite Hip.
      cbn [filter block_attrs BlockedIP_defaults ipAddress unblockedAt opt_eqb is_null].
      rewrite String.eqb_refl. reflexivity. }
  - intros init st ip Hu Hr.
    apply unique_ips_one_active. exact (reachable_unique_ips init st Hu Hr).
  - intros user_id b w t a s blk Hin Hip Hact Hup. simpl.
    unfold BlockedIP_findOne_active. rewrite Hup.
    destruct (find_present (fun x => (has_ip (src_ip b) x && active x)%bool)
                (blocked_ips s) blk Hin) as [y Hy].
    + unfold has_ip, active. rewrite (proj2 (opt_eqb_eq _ _) Hip), Hact. reflexivity.
    + rewrite Hy. reflexivity.
Qed.

(** The invariant at the end of the race, and the refused create of a
    request that arrives at its block step when the address has a row. *)
Lemma C4_witness :
  (List.length (active_blocks "192.168.1.100" (snd (play race two_reports))) <= 1)%nat /\
  log_step analyst (ddos 0.95) (calm 1000 at_block) (AwaitBlockCreate ddos_sample ddos_alert)
    (snd (play race two_reports))
  = (log_error (DbThrown (UniqueViolation "ipAddress")), snd (play race two_reports)).
Proof.
  destruct C4_one_active_block_conflict_fails as (Hinv & _ & Hconflict & _).
  split.
  - apply (Hinv two_reports).
    + constructor.
    + apply play_reachable, reach_init.
  - apply (Hconflict analyst (ddos 0.95) _ ddos_sample ddos_alert _ "192.168.1.100").
    + reflexivity.
    + vm_compute. reflexivity.
    + reflexivity.
Defined.

(* ------------------------------------------------------------------ *)
(** ** The [autoBlocked] flag *)

(** No alert of [/log] is ever marked: the handler leaves [autoBlocked] to
    its default and does not touch the alert after the block is written. *)
Lemma log_alert_never_marked (b : LogBody) (t : TrafficLog) :
  autoBlocked (Alert_defaults (log_alert_attrs b t)) = Some false.
Proof. reflexivity. Qed.

(** C5. The DDoS request at confidence 0.95 on an empty store is answered
    with success, its ingestion blocks 192.168.1.100, and the alert it wrote
    carries [autoBlocked = false]: the flag does not record the block. *)
Theorem C5_alert_not_marked_after_auto_block :
  exists t a row,
    log_handler admin (ddos 0.95) (calm 1000) empty_store
    = (Responded (LogOk t (Some true)) [new_alert a; new_traffic t],
       {| traffic_logs := [t]; alerts := [a]; blocked_ips := [row];
          traffic_log_seq := 2; uuid_seq := 3 |}) /\
    ipAddress (block_attrs row) = Some "192.168.1.100" /\
    unblockedAt (block_attrs row) = None /\
    autoBlocked (alert_attrs a) = Some false.
Proof.
  do 3 eexists. split; [vm_compute; reflexivity|].
  repeat split.
Qed.

(* ------------------------------------------------------------------ *)
(** ** What [/log] stores about the sample *)

(** A request flagged as an attack whose [state] is "Suspicious" is stored
    with trafficState 'suspicious', not 'attack'. *)
Lemma C6_counterexample :
  is_attack probe = Some true /\
  exists t, traffic_logs (snd (log_handler admin probe (calm 1000) empty_store)) = [t] /\
            trafficState (log_attrs t) = Some "suspicious" /\
            trafficState (log_attrs t) <> Some "attack".
Proof.
  split; [reflexivity|]. eexists. split; [vm_compute; reflexivity|].
  split; [reflexivity|discriminate].
Qed.

(** C6. For every sample stored by the pre-classified logging
    path: when the request has no [state], an empty one, or one that reads
    "active" in any letter case, trafficState is 'attack' if the attack flag is
    true and 'normal' otherwise; any other [state] is stored lower-cased as
    the trafficState, whatever the flag.  attackType is the predicted label,
    and absent when the label is "BENIGN". *)
Theorem C6_stored_state_and_type
  (user_id : Z) (b : LogBody) (env : Await -> World) (s s1 : Store) (t : TrafficLog) :
  TrafficLog_create (db_down (env at_traffic)) (column_now (env at_traffic))
    (log_traffic_attrs b) s = inr (t, s1) ->
  traffic_logs (snd (log_handler user_id b env s)) = (traffic_logs s ++ [t])%list /\
  (state b = None \/ state b = Some "" \/
   (exists st, state b = Some st /\ JS.toLowerCase st = "active") ->
   (is_attack b = Some true -> trafficState (log_attrs t) = Some "attack") /\
   (is_attack b <> Some true -> trafficState (log_attrs t) = Some "normal")) /\
  (forall st, state b = Some st -> st <> "" -> JS.toLowerCase st <> "active" ->
              trafficState (log_attrs t) = Some (JS.toLowerCase st)) /\
  (predicted_class b = Some "BENIGN" -> attackType (log_attrs t) = None) /\
  (predicted_class b <> Some "BENIGN" -> attackType (log_attrs t) = predicted_class b).
Proof.
  intro Ht. split; [exact (log_handler_traffic_logs user_id b env s t s1 Ht)|].
  apply TrafficLog_create_ok in Ht. destruct Ht as (_ & _ & Hrow & _).
  rewrite Hrow. simpl. unfold log_trafficState, log_attackType, by_flag.
  assert (Hflag : (is_attack b = Some true -> JS.truthy (is_attack b) = true) /\
                  (is_attack b <> Some true -> JS.truthy (is_attack b) = false)).
  { destruct (is_attack b) as [[|]|]; simpl; split; intros; congruence. }
  destruct Hflag as [Hyes Hno].
  split; [|split; [|split]].
  - intros Hstate.
    split; intro Hi; [rewrite (Hyes Hi)|rewrite (Hno Hi)];
      (destruct Hstate as [Hs|[Hs|(st & Hs & Hlow)]]; rewrite Hs; try reflexivity;
       destruct st; [reflexivity|]; simpl JS.truthy_str; cbv iota;
       rewrite Hlow; reflexivity).
  - intros st Hs Hne Hlow. rewrite Hs.
    destruct st as [|c rest]; [congruence|]. simpl JS.truthy_str. cbv iota.
    apply String.eqb_neq in Hlow. rewrite Hlow. reflexivity.
  - intro Hp. rewrite Hp. reflexivity.
  - intro Hp. destruct (predicted_class b) as [c|]; [|reflexivity].
    destruct (String.eqb c "BENIGN") eqn:E; [|reflexivity].
    apply String.eqb_eq in E. congruence.
Qed.

(** The benign request of [add-attacks.ps1], without a [state]: stored as
    'normal' and without an attackType. *)
Lemma C6_witness :
  exists t, traffic_logs (snd (log_handler admin benign (calm 1000) empty_store)) = [t] /\
            trafficState (log_attrs t) = Some "normal" /\
            attackType (log_attrs t) = None.
Proof.
  destruct (C6_stored_state_and_type admin benign (calm 1000) empty_store _ _ eq_refl)
    as (Hl & Hflag & _ & Hbenign & _).
  eexists. split; [exact Hl|]. split.
  - apply Hflag; [now left|discriminate].
  - apply Hbenign. reflexivity.
Defined.

(* ------------------------------------------------------------------ *)
(** ** Failures of [/analyze] *)


(** A reply whose body is empty, or carries none of the prediction fields,
    is not a failure of the call: the sample is stored, as 'normal'. *)
Example reply_without_fields_is_stored :
  exists t,
    analyze_handler flow
      (Replied (Some {| p_is_attack := None; p_attack_type := None;
                        p_confidence := None; p_anomaly_score := None |}))
      up up empty_store
    = (AnalyzeOk t {| p_is_attack := None; p_attack_type := None;
                      p_confidence := None; p_anomaly_score := None |},
       [new_traffic t],
       {| traffic_logs := [t]; alerts := []; blocked_ips := [];
          traffic_log_seq := 2; uuid_seq := 1 |}) /\
    trafficState (log_attrs t) = Some "normal".
Proof. eexists. split; [vm_compute; reflexivity|reflexivity]. Qed.




(* ------------------------------------------------------------------ *)
(** ** What [/log] requires of a request *)

(** A request without ports and packet size and with a confidence of 1.5
    is accepted: the sample is stored, an alert and a block are written. *)
Lemma C8_counterexample :
  src_port sloppy = None /\ dst_port sloppy = None /\ packet_size sloppy = None /\
  confidence sloppy = Some 1.5%Q /\ ~ (1.5 <= 1)%Q /\
  exists t a row,
    log_handler admin sloppy (calm 1000) empty_store
    = (Responded (LogOk t (Some true)) [new_alert a; new_traffic t],
       {| traffic_logs := [t]; alerts := [a]; blocked_ips := [row];
          traffic_log_seq := 2; uuid_seq := 3 |}) /\
    confidenceScore (log_attrs t) = Some 1.5%Q /\
    severity (alert_attrs a) = Some 5.
Proof.
  repeat (split; [reflexivity|]).
  split; [unfold Qle; simpl; lia|].
  do 3 eexists. split; [vm_compute; reflexivity|]. split; reflexivity.
Qed.

(** C8. A logging request without a source address, a
    destination address or a protocol is refused by the not-null checks of
    the TrafficLog model before anything is written: the store is left
    entirely unchanged, nothing is broadcast, and the caller is answered with
    the kind LogError.  The handler itself checks no field. *)
Theorem C8_missing_address_or_protocol_refused
  (user_id : Z) (b : LogBody) (env : Await -> World) (s : Store) :
  src_ip b = None \/ dst_ip b = None \/ TrafficRoutes.protocol b = None ->
  exists field,
    log_handler user_id b env s
    = (Responded (Err500 "LogError" "Failed to log traffic"
                    (DbThrown (NotNullViolation field))) [], s).
Proof.
  intro Hmissing. rewrite log_handler_direct. unfold log_direct, TrafficLog_create.
  unfold TrafficLog_validate, log_traffic_attrs. cbn [srcIp dstIp Models.protocol].
  destruct (src_ip b) as [src|]; [|eexists; reflexivity].
  destruct (dst_ip b) as [dst|]; [|eexists; reflexivity].
  destruct (TrafficRoutes.protocol b) as [proto|]; [|eexists; reflexivity].
  exfalso. destruct Hmissing as [H|[H|H]]; discriminate.
Qed.

Lemma C8_witness :
  exists field,
    log_handler admin
      {| src_ip := None; dst_ip := Some "192.168.1.5"; src_port := Some 1;
         dst_port := Some 22; TrafficRoutes.protocol := Some "TCP";
         packet_size := Some 500; is_attack := Some true;
         predicted_class := Some "Brute Force"; confidence := Some 0.77%Q;
         state := Some "ACTIVE" |}
      (calm 1000) empty_store
    = (Responded (Err500 "LogError" "Failed to log traffic"
                    (DbThrown (NotNullViolation field))) [], empty_store).
Proof.
  apply C8_missing_address_or_protocol_refused. left. reflexivity.
Defined.

(* ------------------------------------------------------------------ *)
(** ** Failures after the sample is stored *)

(** C9. When [/log] has stored the sample and a later step fails, be it
    the write of the alert, the look-up of the block or the write of the
    block, the handler stops there and answers the caller with a LogError
    that carries the error of the failed step, and broadcasts nothing.  The
    stored sample is in the store when the handler answers, exactly as it was
    written: there is no rollback.  No other error answer exists. *)
Theorem C9_sample_survives_later_failure
  (user_id : Z) (b : LogBody) (env : Await -> World) (s s1 : Store) (t : TrafficLog) :
  TrafficLog_create (db_down (env at_traffic)) (column_now (env at_traffic))
    (log_traffic_attrs b) s = inr (t, s1) ->
  traffic_logs (snd (log_handler user_id b env s)) = (traffic_logs s ++ [t])%list /\
  (forall e,
     alert_due b = true ->
     Alert_create (db_down (env at_alert)) (log_alert_attrs b t) s1 = inl e ->
     log_handler user_id b env s
     = (Responded (Err500 "LogError" "Failed to log traffic" (DbThrown e)) [], s1)) /\
  (forall a s2 e,
     alert_due b = true ->
     Alert_create (db_down (env at_alert)) (log_alert_attrs b t) s1 = inr (a, s2) ->
     JS.ge (confidence b) 0.7 = true ->
     BlockedIP_findOne_active (db_down (env at_find)) (src_ip b) s2 = inl e ->
     log_handler user_id b env s
     = (Responded (Err500 "LogError" "Failed to log traffic" (DbThrown e)) [], s2)) /\
  (forall a s2 e,
     alert_due b = true ->
     Alert_create (db_down (env at_alert)) (log_alert_attrs b t) s1 = inr (a, s2) ->
     JS.ge (confidence b) 0.7 = true ->
     BlockedIP_findOne_active (db_down (env at_find)) (src_ip b) s2 = inr None ->
     BlockedIP_create (db_down (env at_block)) (column_now (env at_block))
       (log_block_attrs user_id (env at_block) b) s2 = inl e ->
     log_handler user_id b env s
     = (Responded (Err500 "LogError" "Failed to log traffic" (DbThrown e)) [], s2)) /\
  (forall error message details emitted,
     fst (log_handler user_id b env s) = Responded (Err500 error message details) emitted ->
     error = "LogError" /\ message = "Failed to log traffic" /\ emitted = []).
Proof.
  intro Ht. split; [exact (log_handler_traffic_logs user_id b env s t s1 Ht)|].
  split; [|split; [|split]].
  - intros e Hdue Ha. rewrite log_handler_direct. unfold log_direct.
    rewrite Ht, Hdue, Ha. reflexivity.
  - intros a s2 e Hdue Ha H7 Hfind. rewrite log_handler_direct. unfold log_direct.
    rewrite Ht, Hdue, Ha, H7, Hfind. reflexivity.
  - intros a s2 e Hdue Ha H7 Hfind Hblock. rewrite log_handler_direct. unfold log_direct.
    rewrite Ht, Hdue, Ha, H7, Hfind, Hblock. reflexivity.
  - intros error message details emitted Hfail. apply log_handler_answer in Hfail.
    destruct Hfail as [(t' & created & H)|(e & H & Hemitted)]; [discriminate|].
    inversion H. repeat split. exact Hemitted.
Qed.

(** The database drops out after the DDoS sample is stored: the caller
    gets a LogError, the sample is there, the alert is not.  And a report
    about the address that was unblocked fails at the write of the block. *)
Lemma C9_witness :
  (exists s1,
     log_handler admin (ddos 0.95) outage_at_alert empty_store
     = (Responded (Err500 "LogError" "Failed to log traffic" (DbThrown ConnectionError)) [],
        s1) /\
     List.length (traffic_logs s1) = 1%nat /\ alerts s1 = []) /\
  (exists s2,
     log_handler admin (ddos 0.95) (calm 1000) lifted
     = (Responded (Err500 "LogError" "Failed to log traffic"
                     (DbThrown (UniqueViolation "ipAddress"))) [], s2) /\
     List.length (traffic_logs s2) = 1%nat /\ List.length (alerts s2) = 1%nat).
Proof.
  split.
  - destruct (C9_sample_survives_later_failure admin (ddos 0.95) outage_at_alert
                empty_store _ _ eq_refl) as (_ & Halert & _).
    eexists. split; [apply (Halert ConnectionError); reflexivity|].
    split; reflexivity.
  - destruct (C9_sample_survives_later_failure admin (ddos 0.95) (calm 1000)
                lifted _ _ eq_refl) as (_ & _ & _ & Hblock & _).
    eexists. split.
    + eapply (Hblock _ _ (UniqueViolation "ipAddress")); reflexivity.
    + split; reflexivity.
Defined.

(* ------------------------------------------------------------------ *)
(** ** The unique index on [ipAddress] *)

(** C10. The store keeps at most one BlockedIP row per address, active or
    not, at every state reachable from a store that satisfies the unique
    index.  For an address whose row is unblocked, the pre-check of [/log]
    (which looks for an active block only) finds nothing, the create that
    follows is refused with a unique-constraint violation, no second row is
    written, and any create for an address that has a row is refused. *)
Theorem C10_ipAddress_unique_over_all_rows :
  (forall (init st : System) (ip : option string),
     unique_ips (snd init) -> reachable init st ->
     (List.length (filter (has_ip ip) (blocked_ips (snd st))) <= 1)%nat) /\
  (forall s blk ip unblocked user_id b w t a,
     unique_ips s -> In blk (blocked_ips s) ->
     ipAddress (block_attrs blk) = Some ip ->
     unblockedAt (block_attrs blk) = Some unblocked ->
     src_ip b = Some ip -> db_down w = false ->
     log_step user_id b w (AwaitFindBlock t a) s = (AwaitBlockCreate t a, s) /\
     log_step user_id b w (AwaitBlockCreate t a) s
     = (log_error (DbThrown (UniqueViolation "ipAddress")), s)) /\
  (forall s blk now a,
     In blk (blocked_ips s) -> ipAddress (block_attrs blk) = ipAddress a ->
     BlockedIP_validate a = None ->
     in_enum "blockType" block_types (blockType a) = None ->
     BlockedIP_create false now a s = inl (UniqueViolation "ipAddress")).
Proof.
  split; [|split].
  - intros init st ip Hu Hr.
    apply unique_ips_one_row. exact (reachable_unique_ips init st Hu Hr).
  - intros s blk ip unblocked user_id b w t a Hu Hin Hip Hun Hsrc Hup. split.
    + simpl. unfold BlockedIP_findOne_active. rewrite Hup, Hsrc.
      rewrite (find_active_unblocked s (Some ip) blk Hu Hin Hip); [reflexivity|].
      unfold active. rewrite Hun. reflexivity.
    + simpl. rewrite Hup. rewrite BlockedIP_create_conflict; try reflexivity.
      * unfold BlockedIP_validate, log_block_attrs. simpl. rewrite Hsrc. reflexivity.
      * unfold log_block_attrs. simpl. rewrite Hsrc.
        exact (existsb_has_ip_true (Some ip) (blocked_ips s) blk Hin Hip).
  - intros s blk now a Hin Hip Hv He.
    apply BlockedIP_create_conflict; try assumption.
    exact (existsb_has_ip_true _ _ blk Hin Hip).
Qed.

(** A new DDoS report about the address that was unblocked: the pre-check
    passes and the create is refused. *)
Lemma C10_witness :
  log_step admin (ddos 0.95) up (AwaitFindBlock ddos_sample ddos_alert) lifted
  = (AwaitBlockCreate ddos_sample ddos_alert, lifted) /\
  log_step admin (ddos 0.95) up (AwaitBlockCreate ddos_sample ddos_alert) lifted
  = (log_error (DbThrown (UniqueViolation "ipAddress")), lifted).
Proof.
  destruct C10_ipAddress_unique_over_all_rows as (_ & Hreblock & _).
  apply (Hreblock lifted old_block "192.168.1.100" 500).
  - unfold unique_ips. simpl. constructor; [intros []|constructor].
  - simpl. left. reflexivity.
  - reflexivity.
  - reflexivity.
  - reflexivity.
  - reflexivity.
Defined.

(** The whole request on that store: the sample and the alert are written,
    the block is not, and the caller gets a LogError. *)
Example reblock_is_refused :
  exists t a,
    log_handler admin (ddos 0.95) (calm 1000) lifted
    = (log_error (DbThrown (UniqueViolation "ipAddress")),
       {| traffic_logs := [t]; alerts := [a]; blocked_ips := blocked_ips lifted;
          traffic_log_seq := 2; uuid_seq := 3 |}).
Proof. do 2 eexists. vm_compute. reflexivity. Qed.

(* ------------------------------------------------------------------ *)
(** ** Alert policy of [/analyze] *)

(** The alert that [/analyze] builds passes every check of the Alert model. *)
Lemma analyze_alert_accepted trafficData p t s :
  Alert_create false (analyze_alert_attrs trafficData p t) s =
  inr ({| alert_id := uuid_seq s;
          alert_attrs := Alert_defaults (analyze_alert_attrs trafficData p t) |},
       {| traffic_logs := traffic_logs s;
          alerts := alerts s ++ [{| alert_id := uuid_seq s;
                                    alert_attrs :=
                                      Alert_defaults (analyze_alert_attrs trafficData p t) |}];
          blocked_ips := blocked_ips s;
          traffic_log_seq := traffic_log_seq s;
          uuid_seq := uuid_seq s + 1 |}).
Proof.
  unfold Alert_create, Alert_validate, Alert_constraints, analyze_alert_attrs. simpl.
  destruct (JS.ge (p_confidence p) 0.95); reflexivity.
Qed.

(** X1. On the analysis path, once the sample is stored, an alert is
    written exactly when the prediction flags an attack with a confidence of at
    least 0.85.  The alert is linked to the sample, is always labelled HIGH,
    is open, and has severity 5 from 0.95 on and 4 below. *)
Theorem X1_analyze_alert_policy
  (trafficData : TrafficLogAttrs) (p : Prediction) (w_traffic w_alert : World)
  (s s1 : Store) (t : TrafficLog) :
  TrafficLog_create (db_down w_traffic) (column_now w_traffic)
    (analyze_traffic_attrs trafficData p) s = inr (t, s1) ->
  db_down w_alert = false ->
  (forall c, p_is_attack p = Some true -> p_confidence p = Some c -> (0.85 <= c)%Q ->
     exists a,
       alerts (snd (analyze_handler trafficData (Replied (Some p)) w_traffic w_alert s))
       = (alerts s ++ [a])%list /\
       trafficLogId (alert_attrs a) = Some (log_id t) /\
       alertType (alert_attrs a) = Some "HIGH" /\
       status (alert_attrs a) = Some "open" /\
       ((0.95 <= c)%Q -> severity (alert_attrs a) = Some 5) /\
       ((c < 0.95)%Q -> severity (alert_attrs a) = Some 4)) /\
  (p_is_attack p <> Some true \/ p_confidence p = None \/
   (exists c, p_confidence p = Some c /\ (c < 0.85)%Q) ->
   alerts (snd (analyze_handler trafficData (Replied (Some p)) w_traffic w_alert s))
   = alerts s).
Proof.
  intros Ht Hup. unfold analyze_handler. rewrite Ht, Hup.
  apply TrafficLog_create_ok in Ht. destruct Ht as (_ & _ & _ & _ & Ha & _).
  split.
  - intros c Hi Hc Hle. rewrite Hi, Hc. simpl JS.truthy.
    rewrite (proj2 (ge_true c 0.85) Hle). cbn [andb].
    rewrite analyze_alert_accepted. cbn [snd alerts]. rewrite Ha.
    eexists. split; [reflexivity|]. simpl. rewrite Hc.
    repeat split; try reflexivity.
    + intro H. rewrite (proj2 (ge_true c 0.95) H). reflexivity.
    + intro H. rewrite (proj2 (ge_false c 0.95) H). reflexivity.
  - intro Hno.
    assert (Hdue : (JS.truthy (p_is_attack p) && JS.ge (p_confidence p) 0.85)%bool = false).
    { destruct Hno as [Hi|[Hc|(c & Hc & Hlt)]].
      - destruct (p_is_attack p) as [[|]|]; [congruence|reflexivity|reflexivity].
      - rewrite Hc. apply andb_false_r.
      - rewrite Hc, (proj2 (ge_false c 0.85) Hlt). apply andb_false_r. }
    rewrite Hdue. exact Ha.
Qed.

Lemma X1_witness :
  exists a,
    alerts (snd (analyze_handler flow (Replied (Some verdict)) up up empty_store)) = [a] /\
    alertType (alert_attrs a) = Some "HIGH" /\
    severity (alert_attrs a) = Some 5.
Proof.
  destruct (X1_analyze_alert_policy flow verdict up up empty_store _ _ eq_refl eq_refl)
    as [Hyes _].
  destruct (Hyes 0.97%Q eq_refl eq_refl) as (a & Ha & _ & Hhigh & _ & H5 & _).
  - unfold Qle; simpl; lia.
  - exists a. split; [exact Ha|]. split; [exact Hhigh|].
    apply H5. unfold Qle; simpl; lia.
Defined.

(** X2. The analysis path never blocks: whatever the request, the reply of
    the classifier and the state of the database, [/analyze] leaves the
    blocked_ips table as it found it. *)
Theorem X2_analyze_never_blocks
  (trafficData : TrafficLogAttrs) (gw : Gateway) (w_traffic w_alert : World) (s : Store) :
  blocked_ips (snd (analyze_handler trafficData gw w_traffic w_alert s)) = blocked_ips s.
Proof.
  unfold analyze_handler. destruct gw as [msg|[p|]]; try reflexivity.
  destruct (TrafficLog_create _ _ _ s) as [e|[t s1]] eqn:Ht; [reflexivity|].
  apply TrafficLog_create_ok in Ht. destruct Ht as (_ & _ & _ & _ & _ & Hb).
  destruct (JS.truthy (p_is_attack p) && JS.ge (p_confidence p) 0.85)%bool; [|exact Hb].
  destruct (Alert_create _ _ s1) as [e|[a s2]] eqn:Ha; [exact Hb|].
  apply Alert_create_ok in Ha. destruct Ha as (_ & _ & _ & _ & Hb2).
  simpl. congruence.
Qed.

(** X3. What [/analyze] stores about a sample comes from the prediction
    alone: trafficState is 'attack' when the prediction flags an attack and
    'normal' otherwise, whatever the request says, and attackType is the
    predicted label as it is, the label "BENIGN" included. *)
Theorem X3_analyze_stored_fields
  (trafficData : TrafficLogAttrs) (p : Prediction) (w_traffic w_alert : World)
  (s s1 : Store) (t : TrafficLog) :
  TrafficLog_create (db_down w_traffic) (column_now w_traffic)
    (analyze_traffic_attrs trafficData p) s = inr (t, s1) ->
  traffic_logs (snd (analyze_handler trafficData (Replied (Some p)) w_traffic w_alert s))
  = (traffic_logs s ++ [t])%list /\
  (p_is_attack p = Some true -> trafficState (log_attrs t) = Some "attack") /\
  (p_is_attack p <> Some true -> trafficState (log_attrs t) = Some "normal") /\
  attackType (log_attrs t) = p_attack_type p /\
  isAttack (log_attrs t) = p_is_attack p /\
  confidenceScore (log_attrs t) = p_confidence p /\
  srcIp (log_attrs t) = srcIp trafficData.
Proof.
  intro Ht. unfold analyze_handler. rewrite Ht.
  apply TrafficLog_create_ok in Ht. destruct Ht as (_ & _ & Hrow & Hl & _).
  split.
  - destruct (JS.truthy (p_is_attack p) && JS.ge (p_confidence p) 0.85)%bool; [|exact Hl].
    destruct (Alert_create _ _ s1) as [e|[a s2]] eqn:Ha; [exact Hl|].
    apply Alert_create_ok in Ha. destruct Ha as (_ & _ & Hl2 & _). simpl. congruence.
  - rewrite Hrow. simpl. repeat split.
    + intro Hi. rewrite Hi. reflexivity.
    + intro Hi. destruct (p_is_attack p) as [[|]|]; [congruence|reflexivity|reflexivity].
Qed.

Lemma X3_witness :
  exists t,
    traffic_logs (snd (analyze_handler flow (Replied (Some harmless)) up up empty_store))
    = [t] /\
    trafficState (log_attrs t) = Some "normal" /\
    attackType (log_attrs t) = Some "BENIGN".
Proof.
  destruct (X3_analyze_stored_fields flow harmless up up empty_store _ _ eq_refl)
    as (Hl & _ & Hnormal & Htype & _).
  eexists. split; [exact Hl|]. split; [apply Hnormal; discriminate|exact Htype].
Defined.

(** X4. When [/analyze] has stored the sample and the alert write fails,
    the sample stays in the store, no alert is written, nothing is broadcast
    and the caller is answered with an AnalysisError. *)
Theorem X4_analyze_sample_survives_alert_failure
  (trafficData : TrafficLogAttrs) (p : Prediction) (w_traffic w_alert : World)
  (s s1 : Store) (t : TrafficLog) (c : Q) :
  TrafficLog_create (db_down w_traffic) (column_now w_traffic)
    (analyze_traffic_attrs trafficData p) s = inr (t, s1) ->
  p_is_attack p = Some true -> p_confidence p = Some c -> (0.85 <= c)%Q ->
  db_down w_alert = true ->
  analyze_handler trafficData (Replied (Some p)) w_traffic w_alert s
  = (Err500 "AnalysisError" "Failed to analyze traffic" (DbThrown ConnectionError), [], s1) /\
  traffic_logs s1 = (traffic_logs s ++ [t])%list /\ alerts s1 = alerts s.
Proof.
  intros Ht Hi Hc Hle Hdown. unfold analyze_handler. rewrite Ht, Hi, Hc, Hdown.
  simpl JS.truthy. rewrite (proj2 (ge_true c 0.85) Hle). cbn [andb].
  apply TrafficLog_create_ok in Ht. destruct Ht as (_ & _ & _ & Hl & Ha & _).
  split; [|split; assumption].
  unfold Alert_create, Alert_validate, analyze_alert_attrs. simpl.
  destruct (JS.ge (p_confidence p) 0.95); reflexivity.
Qed.

Lemma X4_witness :
  exists s1,
    analyze_handler flow (Replied (Some verdict)) up down empty_store
    = (Err500 "AnalysisError" "Failed to analyze traffic" (DbThrown ConnectionError), [], s1)
    /\ List.length (traffic_logs s1) = 1%nat /\ alerts s1 = [].
Proof.
  destruct (X4_analyze_sample_survives_alert_failure flow verdict up down empty_store
              _ _ 0.97%Q eq_refl eq_refl eq_refl) as (Hrun & Hl & Ha).
  - unfold Qle; simpl; lia.
  - reflexivity.
  - eexists. split; [exact Hrun|]. split; [rewrite Hl; reflexivity|exact Ha].
Defined.

(* ------------------------------------------------------------------ *)
(** ** The answer of [/log] and what was done *)

(** What a success answer of [/log] says about the store. *)
Lemma log_success_store
  (user_id : Z) (b : LogBody) (env : Await -> World) (s : Store)
  (t : TrafficLog) (created : option bool) (emitted : list Event) :
  fst (log_handler user_id b env s) = Responded (LogOk t created) emitted ->
  traffic_logs (snd (log_handler user_id b env s)) = (traffic_logs s ++ [t])%list /\
  ((created = Some true /\
    exists a, alerts (snd (log_handler user_id b env s)) = (alerts s ++ [a])%list /\
              trafficLogId (alert_attrs a) = Some (log_id t) /\
              emitted = [new_alert a; new_traffic t]) \/
   (created <> Some true /\
    alerts (snd (log_handler user_id b env s)) = alerts s /\
    emitted = [new_traffic t])).
Proof.
  rewrite log_handler_direct. unfold log_direct, log_ok, log_error.
  destruct (TrafficLog_create _ _ _ s) as [e|[t0 s1]] eqn:Ht; [discriminate|].
  apply TrafficLog_create_ok in Ht. destruct Ht as (_ & _ & _ & Hl & Ha & _).
  destruct (alert_due b) eqn:Hdue.
  - assert (Hcreated : JS.and_then (is_attack b) (JS.ge (confidence b) 0.5) = Some true).
    { unfold alert_due in Hdue. apply andb_true_iff in Hdue. destruct Hdue as [Hi Hc].
      destruct (is_attack b) as [[|]|]; try discriminate. simpl. now rewrite Hc. }
    destruct (Alert_create _ _ s1) as [e|[a s2]] eqn:Hal; [discriminate|].
    apply Alert_create_ok in Hal. destruct Hal as (_ & Hrow & Hl2 & Ha2 & _).
    assert (Hlink : trafficLogId (alert_attrs a) = Some (log_id t0)) by now rewrite Hrow.
    clear Hrow.
    destruct (JS.ge (confidence b) 0.7).
    + destruct (BlockedIP_findOne_active _ _ s2) as [e|[found|]]; [discriminate| |].
      * simpl. intro H. inversion H; subst. split; [congruence|].
        left. split; [exact Hcreated|]. exists a. repeat split; congruence.
      * destruct (BlockedIP_create _ _ _ s2) as [e|[row s3]] eqn:Hb; [discriminate|].
        apply BlockedIP_create_ok in Hb. destruct Hb as (_ & _ & _ & Hl3 & Ha3 & _).
        simpl. intro H. inversion H; subst. split; [congruence|].
        left. split; [exact Hcreated|]. exists a. repeat split; congruence.
    + simpl. intro H. inversion H; subst. split; [congruence|].
      left. split; [exact Hcreated|]. exists a. repeat split; congruence.
  - simpl. intro H. inversion H; subst. split; [exact Hl|].
    right. split; [|split; [exact Ha|reflexivity]].
    unfold alert_due in Hdue.
    destruct (is_attack b) as [[|]|]; simpl in *; [|discriminate|discriminate].
    rewrite Hdue. discriminate.
Qed.

(** X5. A success answer of [/log] tells the truth about the store: the
    sample in the answer is the row just appended to traffic_logs, and
    [alertCreated] is [true] exactly when one alert, linked to that sample,
    was appended, and then the alert and the sample were broadcast; otherwise
    no alert was written and only the sample was broadcast. *)
Theorem X5_success_answer_matches_store
  (user_id : Z) (b : LogBody) (env : Await -> World) (s : Store)
  (t : TrafficLog) (created : option bool) (emitted : list Event) :
  fst (log_handler user_id b env s) = Responded (LogOk t created) emitted ->
  traffic_logs (snd (log_handler user_id b env s)) = (traffic_logs s ++ [t])%list /\
  ((created = Some true /\
    exists a, alerts (snd (log_handler user_id b env s)) = (alerts s ++ [a])%list /\
              trafficLogId (alert_attrs a) = Some (log_id t) /\
              emitted = [new_alert a; new_traffic t]) \/
   (created <> Some true /\
    alerts (snd (log_handler user_id b env s)) = alerts s /\
    emitted = [new_traffic t])).
Proof. exact (log_success_store user_id b env s t created emitted). Qed.

Lemma X5_witness :
  exists t a,
    alerts (snd (log_handler admin (ddos 0.59) (calm 1000) empty_store)) = [a] /\
    trafficLogId (alert_attrs a) = Some (log_id t).
Proof.
  destruct (X5_success_answer_matches_store admin (ddos 0.59) (calm 1000) empty_store
              _ _ _ eq_refl) as (_ & [(_ & a & Ha & Hlink & _)|(Hno & _)]).
  - eexists. exists a. split; [exact Ha|exact Hlink].
  - exfalso. apply Hno. reflexivity.
Defined.

(** X6. A report about an address that was blocked once and unblocked
    since cannot block it again: with the database reachable, the sample and
    the alert are written, the pre-check passes, the create is refused by the
    unique index, the caller is answered with a LogError and neither the
    sample nor the alert is broadcast. *)
Theorem X6_reblock_fails_after_alert
  (user_id : Z) (b : LogBody) (env : Await -> World) (s s1 : Store) (t : TrafficLog)
  (c : Q) (blk : BlockedIP) (unblocked : Z) :
  TrafficLog_create (db_down (env at_traffic)) (column_now (env at_traffic))
    (log_traffic_attrs b) s = inr (t, s1) ->
  (forall a, db_down (env a) = false) ->
  is_attack b = Some true -> confidence b = Some c -> (0.7 <= c)%Q ->
  unique_ips s -> In blk (blocked_ips s) ->
  ipAddress (block_attrs blk) = src_ip b ->
  unblockedAt (block_attrs blk) = Some unblocked ->
  exists a s',
    log_handler user_id b env s
    = (Responded (Err500 "LogError" "Failed to log traffic"
                    (DbThrown (UniqueViolation "ipAddress"))) [], s') /\
    traffic_logs s' = (traffic_logs s ++ [t])%list /\
    alerts s' = (alerts s ++ [a])%list /\
    trafficLogId (alert_attrs a) = Some (log_id t) /\
    blocked_ips s' = blocked_ips s.
Proof.
  intros Ht Hup Hi Hc Hle Hu Hin Hip Hun.
  rewrite log_handler_direct. unfold log_direct. rewrite Ht, !Hup.
  assert (Hsrc : exists ip, src_ip b = Some ip).
  { apply TrafficLog_create_ok in Ht. destruct Ht as (_ & Hv & _).
    unfold TrafficLog_validate, log_traffic_attrs in Hv. simpl in Hv.
    destruct (src_ip b) as [ip|]; [eauto|discriminate]. }
  destruct Hsrc as [ip Hsrc].
  apply TrafficLog_create_ok in Ht. destruct Ht as (_ & _ & _ & Hl & Ha & Hb).
  rewrite (alert_due_true b c Hi Hc); [|lra].
  rewrite log_alert_accepted. rewrite Hc, (proj2 (ge_true c 0.7) Hle).
  unfold BlockedIP_findOne_active. cbn [blocked_ips].
  assert (Hu1 : unique_ips s1) by (unfold unique_ips; now rewrite Hb).
  rewrite <- Hb in Hin.
  rewrite (find_active_unblocked s1 (src_ip b) blk Hu1 Hin Hip);
    [|unfold active; now rewrite Hun].
  rewrite BlockedIP_create_conflict.
  - do 2 eexists. split; [reflexivity|]. cbn. rewrite Hl, Ha, Hb.
    repeat split; reflexivity.
  - unfold BlockedIP_validate, log_block_attrs. simpl. rewrite Hsrc. reflexivity.
  - reflexivity.
  - cbn [blocked_ips log_block_attrs ipAddress].
    exact (existsb_has_ip_true (src_ip b) (blocked_ips s1) blk Hin Hip).
Qed.

Lemma X6_witness :
  exists a s',
    log_handler admin (ddos 0.95) (calm 1000) lifted
    = (Responded (Err500 "LogError" "Failed to log traffic"
                    (DbThrown (UniqueViolation "ipAddress"))) [], s') /\
    alerts s' = [a] /\ blocked_ips s' = [old_block].
Proof.
  destruct (X6_reblock_fails_after_alert admin (ddos 0.95) (calm 1000) lifted _ _
              0.95%Q old_block 500 eq_refl) as (a & s' & Hrun & _ & Ha & _ & Hb).
  - intro a. reflexivity.
  - reflexivity.
  - reflexivity.
  - unfold Qle; simpl; lia.
  - unfold unique_ips. simpl. constructor; [intros []|constructor].
  - simpl. left. reflexivity.
  - reflexivity.
  - reflexivity.
  - exists a, s'. split; [exact Hrun|]. split; [exact Ha|exact Hb].
Defined.

(* ------------------------------------------------------------------ *)
(** ** What the handlers of [/log] never do *)

Lemma extends_refl s : extends s s.
Proof. repeat split; exists []; now rewrite app_nil_r. Qed.

Lemma extends_trans s1 s2 s3 : extends s1 s2 -> extends s2 s3 -> extends s1 s3.
Proof.
  intros ((l1 & H1) & (a1 & H2) & (b1 & H3)) ((l2 & H4) & (a2 & H5) & (b2 & H6)).
  repeat split.
  - exists (l1 ++ l2)%list. now rewrite H4, H1, app_assoc.
  - exists (a1 ++ a2)%list. now rewrite H5, H2, app_assoc.
  - exists (b1 ++ b2)%list. now rewrite H6, H3, app_assoc.
Qed.

Lemma extends_of_tables s s' l a b :
  traffic_logs s' = (traffic_logs s ++ l)%list ->
  alerts s' = (alerts s ++ a)%list ->
  blocked_ips s' = (blocked_ips s ++ b)%list -> extends s s'.
Proof. intros H1 H2 H3. repeat split; eauto. Qed.

Lemma log_step_extends user_id b w pc s :
  extends s (snd (log_step user_id b w pc s)).
Proof.
  destruct pc as [|t|t a|t a|r ev]; simpl.
  - destruct (TrafficLog_create _ _ _ s) as [e|[t s1]] eqn:Hc; [apply extends_refl|].
    apply TrafficLog_create_ok in Hc. destruct Hc as (_ & _ & _ & Hl & Ha & Hb).
    assert (extends s s1).
    { apply (extends_of_tables s s1 [t] [] []); now rewrite ?app_nil_r. }
    destruct (alert_due b); assumption.
  - destruct (Alert_create _ _ s) as [e|[row s1]] eqn:Hc; [apply extends_refl|].
    apply Alert_create_ok in Hc. destruct Hc as (_ & _ & Hl & Ha & Hb).
    assert (extends s s1).
    { apply (extends_of_tables s s1 [] [row] []); now rewrite ?app_nil_r. }
    destruct (JS.ge (confidence b) 0.7); assumption.
  - destruct (BlockedIP_findOne_active _ _ s) as [e|[found|]]; apply extends_refl.
  - destruct (BlockedIP_create _ _ _ s) as [e|[row s1]] eqn:Hc; [apply extends_refl|].
    apply BlockedIP_create_ok in Hc. destruct Hc as (_ & _ & _ & Hl & Ha & Hb).
    apply (extends_of_tables s s1 [] [] [row]); now rewrite ?app_nil_r.
  - apply extends_refl.
Qed.

Lemma advance_extends i w ts s : extends s (snd (advance i w ts s)).
Proof.
  revert i. induction ts as [|th rest IH]; intro i.
  - destruct i; apply extends_refl.
  - destruct i as [|j]; simpl.
    + pose proof (log_step_extends (th_user th) (th_body th) w (th_pc th) s) as H.
      destruct (log_step (th_user th) (th_body th) w (th_pc th) s). exact H.
    + specialize (IH j). destruct (advance j w rest s). exact IH.
Qed.

(** X7. The handlers of [/log] only ever append: at every state reachable
    by accepting requests and resuming handlers, in any order and whatever
    fails, each of the three tables still begins with the rows it had, in
    the same order and unchanged. *)
Theorem X7_log_handlers_only_append (init st : System) :
  reachable init st -> extends (snd init) (snd st).
Proof.
  intro Hr. induction Hr as [|mid final _ IH Hstep]; [apply extends_refl|].
  apply (extends_trans _ _ _ IH).
  destruct Hstep as [u b ts s|i w ts s]; simpl; [apply extends_refl|].
  apply advance_extends.
Qed.

(** Two more reports race on a store that already holds three samples, two
    alerts and a block: what it held is still there, in place. *)
Lemma X7_witness :
  extends busy (snd (play race second_wave)) /\
  List.length (traffic_logs busy) = 3%nat /\
  List.length (alerts busy) = 2%nat /\
  List.length (blocked_ips busy) = 1%nat /\
  List.length (traffic_logs (snd (play race second_wave))) = 5%nat /\
  List.length (blocked_ips (snd (play race second_wave))) = 2%nat.
Proof.
  split.
  - apply (X7_log_handlers_only_append second_wave). apply play_reachable, reach_init.
  - repeat split; vm_compute; reflexivity.
Defined.

(** A sample that the store accepted once is accepted whenever the database
    is reachable: no check of TrafficLog looks at the tables. *)
Lemma TrafficLog_create_again down now a s t s1 now' s' :
  TrafficLog_create down now a s = inr (t, s1) ->
  exists t' s1', TrafficLog_create false now' a s' = inr (t', s1').
Proof.
  unfold TrafficLog_create.
  destruct (TrafficLog_validate a); [discriminate|].
  destruct down; [discriminate|].
  destruct (TrafficLog_constraints a); [discriminate|]. eauto.
Qed.

(** X8. Reporting the same attack twice blocks once.  When a report with a
    confidence of at least 0.70 about an address without a row is served, and
    then served again, the database reachable throughout, the first request
    writes the block and the second, answered with success, writes its own
    sample and alert and leaves blocked_ips alone. *)
Theorem X8_second_report_blocks_nothing
  (user_id : Z) (b : LogBody) (env env' : Await -> World) (s s1 : Store) (t : TrafficLog)
  (c : Q) :
  TrafficLog_create (db_down (env at_traffic)) (column_now (env at_traffic))
    (log_traffic_attrs b) s = inr (t, s1) ->
  (forall a, db_down (env a) = false) -> (forall a, db_down (env' a) = false) ->
  is_attack b = Some true -> confidence b = Some c -> (0.7 <= c)%Q ->
  existsb (has_ip (src_ip b)) (blocked_ips s) = false ->
  exists row t2 a2,
    blocked_ips (snd (log_handler user_id b env s)) = (blocked_ips s ++ [row])%list /\
    fst (log_handler user_id b env' (snd (log_handler user_id b env s)))
    = Responded (LogOk t2 (Some true)) [new_alert a2; new_traffic t2] /\
    blocked_ips (snd (log_handler user_id b env' (snd (log_handler user_id b env s))))
    = (blocked_ips s ++ [row])%list.
Proof.
  intros Ht Hup Hup' Hi Hc Hle Hfree.
  destruct (log_handler_blocks user_id b env s t s1 c Ht (Hup _) (Hup _) (Hup _)
              Hi Hc Hle Hfree) as (row & Hfirst & Hrow).
  set (mid := snd (log_handler user_id b env s)) in *.
  exists row.
  destruct (TrafficLog_create_again _ _ _ _ _ _ (column_now (env' at_traffic)) mid Ht)
    as (t2 & m1 & Ht2).
  rewrite log_handler_direct. unfold log_direct. rewrite !Hup', Ht2.
  apply TrafficLog_create_ok in Ht2. destruct Ht2 as (_ & _ & _ & _ & _ & Hb2).
  rewrite (alert_due_true b c Hi Hc); [|lra].
  rewrite log_alert_accepted. rewrite Hc, (proj2 (ge_true c 0.7) Hle).
  unfold BlockedIP_findOne_active. cbn [blocked_ips]. rewrite Hb2, Hfirst.
  destruct (find_present (fun x => (has_ip (src_ip b) x && active x)%bool)
              (blocked_ips s ++ [row]) row) as [y Hy].
  - apply in_or_app. right. now left.
  - unfold has_ip, active. rewrite Hrow. unfold auto_block, log_block_attrs. simpl.
    destruct (src_ip b) as [ip|]; simpl; [now rewrite String.eqb_refl|reflexivity].
  - rewrite Hy. unfold log_ok. rewrite Hi. cbn [JS.and_then].
    assert (H5 : JS.ge (confidence b) 0.5 = true) by (rewrite Hc; apply ge_true; lra).
    rewrite H5. do 2 eexists. split; [reflexivity|]. split; reflexivity.
Qed.

Lemma X8_witness :
  exists row t2 a2,
    blocked_ips (snd (log_handler admin (ddos 0.95) (calm 1000) empty_store)) = [row] /\
    fst (log_handler admin (ddos 0.95) (calm 2000)
           (snd (log_handler admin (ddos 0.95) (calm 1000) empty_store)))
    = Responded (LogOk t2 (Some true)) [new_alert a2; new_traffic t2] /\
    blocked_ips (snd (log_handler admin (ddos 0.95) (calm 2000)
                        (snd (log_handler admin (ddos 0.95) (calm 1000) empty_store))))
    = [row].
Proof.
  apply (X8_second_report_blocks_nothing admin (ddos 0.95) (calm 1000) (calm 2000)
           empty_store _ _ 0.95%Q eq_refl).
  - intro a. reflexivity.
  - intro a. reflexivity.
  - reflexivity.
  - reflexivity.
  - unfold Qle; simpl; lia.
  - reflexivity.
Defined.

(* ------------------------------------------------------------------ *)
(** ** Alerts and their samples *)

Lemma holds_sample_extends s s' pc :
  extends s s' -> holds_sample s pc -> holds_sample s' pc.
Proof.
  intros ((more & Hl) & _) H.
  destruct pc; simpl in *; try exact I; rewrite Hl; apply in_or_app; now left.
Qed.

Lemma linked_more_samples s s' :
  linked s -> alerts s' = alerts s ->
  (exists more, traffic_logs s' = (traffic_logs s ++ more)%list) -> linked s'.
Proof.
  intros Hlk Ha (more & Hl) a Hin. rewrite Ha in Hin.
  destruct (Hlk a Hin) as (t & Ht & Hid). exists t. split; [|exact Hid].
  rewrite Hl. apply in_or_app. now left.
Qed.

Lemma log_step_sound user_id b w pc s :
  linked s -> holds_sample s pc ->
  linked (snd (log_step user_id b w pc s)) /\
  holds_sample (snd (log_step user_id b w pc s)) (fst (log_step user_id b w pc s)).
Proof.
  intros Hlk Hpc. destruct pc as [|t|t a|t a|r ev]; simpl.
  - destruct (TrafficLog_create _ _ _ s) as [e|[t s1]] eqn:Hc; [split; [exact Hlk|exact I]|].
    apply TrafficLog_create_ok in Hc. destruct Hc as (_ & _ & _ & Hl & Ha & _).
    assert (linked s1) by (apply (linked_more_samples s); eauto).
    destruct (alert_due b); simpl; split; try assumption; try exact I.
    rewrite Hl. apply in_or_app. right. now left.
  - destruct (Alert_create _ _ s) as [e|[row s1]] eqn:Hc; [split; [exact Hlk|exact I]|].
    apply Alert_create_ok in Hc. destruct Hc as (_ & Hrow & Hl & Ha & _).
    assert (Hlk1 : linked s1).
    { intros x Hin. rewrite Ha in Hin. apply in_app_or in Hin. rewrite Hl.
      destruct Hin as [Hin|[Heq|[]]]; [exact (Hlk x Hin)|].
      exists t. split; [exact Hpc|]. rewrite <- Heq, Hrow. reflexivity. }
    destruct (JS.ge (confidence b) 0.7); simpl; split; try assumption; try exact I.
    rewrite Hl. exact Hpc.
  - destruct (BlockedIP_findOne_active _ _ s) as [e|[found|]]; simpl;
      split; try assumption; exact I.
  - destruct (BlockedIP_create _ _ _ s) as [e|[row s1]] eqn:Hc; simpl;
      [split; [exact Hlk|exact I]|].
    apply BlockedIP_create_ok in Hc. destruct Hc as (_ & _ & _ & Hl & Ha & _).
    split; [|exact I]. apply (linked_more_samples s); try assumption.
    exists []. now rewrite app_nil_r.
  - split; [exact Hlk|exact I].
Qed.

Lemma advance_sound i w ts s : sound (ts, s) -> sound (advance i w ts s).
Proof.
  unfold sound. simpl. revert i.
  induction ts as [|th rest IH]; intros i [Hlk Hall].
  - destruct i; simpl; split; assumption.
  - inversion Hall as [|? ? Hth Hrest]; subst. destruct i as [|j]; simpl.
    + pose proof (log_step_sound (th_user th) (th_body th) w (th_pc th) s Hlk Hth)
        as [Hlk' Hpc'].
      pose proof (log_step_extends (th_user th) (th_body th) w (th_pc th) s) as Hext.
      destruct (log_step (th_user th) (th_body th) w (th_pc th) s) as [pc' s'].
      simpl in *. split; [exact Hlk'|]. constructor; [exact Hpc'|].
      apply (Forall_impl _ (fun x Hx => holds_sample_extends s s' _ Hext Hx) Hrest).
    + specialize (IH j (conj Hlk Hrest)).
      pose proof (advance_extends j w rest s) as Hext.
      destruct (advance j w rest s) as [rest' s']. simpl in *.
      destruct IH as [Hlk' Hrest']. split; [exact Hlk'|].
      constructor; [|exact Hrest']. exact (holds_sample_extends s s' _ Hext Hth).
Qed.

(** X9. No alert without its sample.  Starting from a store in which every
    alert refers to a stored sample, with every handler in flight carrying a
    stored sample, this stays so at every state reached by accepting requests
    and resuming handlers in any order, whatever fails on the way. *)
Theorem X9_alerts_refer_to_stored_samples (init st : System) :
  sound init -> reachable init st -> sound st.
Proof.
  intros Hs Hr. induction Hr as [|mid final _ IH Hstep]; [exact Hs|].
  destruct Hstep as [u b ts s|i w ts s].
  - destruct IH as [Hlk Hall]. split; [exact Hlk|]. simpl in *.
    apply Forall_app. split; [exact Hall|]. constructor; [exact I|constructor].
  - now apply advance_sound.
Qed.

Lemma X9_witness : linked (snd (play race two_reports)).
Proof.
  apply (X9_alerts_refer_to_stored_samples two_reports).
  - split; [intros a []|]. repeat constructor.
  - apply play_reachable, reach_init.
Defined.

(* ------------------------------------------------------------------ *)
(** ** The [state] of a report and the trafficState column *)

(** X10. A report whose [state], lower-cased, is neither "active" nor one
    of the four values of the trafficState column is refused whatever else it
    says: the handler passes the lower-cased text on, the store rejects the
    sample, nothing is written or broadcast and the caller is answered with a
    LogError. *)
Theorem X10_unknown_state_is_refused
  (user_id : Z) (b : LogBody) (env : Await -> World) (s : Store) (st : string) :
  state b = Some st -> st <> "" -> JS.toLowerCase st <> "active" ->
  ~ In (JS.toLowerCase st) traffic_states ->
  exists e, log_handler user_id b env s
            = (Responded (Err500 "LogError" "Failed to log traffic" (DbThrown e)) [], s).
Proof.
  intros Hst Hne Hact Hnot. rewrite log_handler_direct. unfold log_direct, log_error.
  unfold TrafficLog_create.
  destruct (TrafficLog_validate (log_traffic_attrs b)); [eauto|].
  destruct (db_down (env at_traffic)); [eauto|].
  assert (Hbad : TrafficLog_constraints (log_traffic_attrs b)
                 = Some (InvalidEnumValue "trafficState")).
  { unfold TrafficLog_constraints, log_traffic_attrs, in_enum. cbn [trafficState].
    unfold log_trafficState. rewrite Hst.
    destruct st as [|ch rest]; [congruence|]. cbn [JS.truthy_str].
    apply String.eqb_neq in Hact. rewrite Hact.
    destruct (existsb (String.eqb (JS.toLowerCase (String ch rest))) traffic_states) eqn:E;
      [|reflexivity].
    exfalso. apply existsb_exists in E. destruct E as (x & Hin & Hx).
    apply String.eqb_eq in Hx. subst x. exact (Hnot Hin). }
  rewrite Hbad. eauto.
Qed.

(** The fourth request of [add-attacks.ps1], benign traffic in state
    "COMPLETED", is refused. *)
Lemma X10_witness :
  exists e,
    log_handler admin
      {| src_ip := Some "192.168.1.50"; dst_ip := Some "8.8.8.8";
         src_port := Some 12345; dst_port := Some 443;
         TrafficRoutes.protocol := Some "TCP"; packet_size := Some 1200;
         is_attack := Some false; predicted_class := Some "BENIGN";
         confidence := Some 0.94%Q; state := Some "COMPLETED" |}
      (calm 1000) empty_store
    = (Responded (Err500 "LogError" "Failed to log traffic" (DbThrown e)) [], empty_store).
Proof.
  apply (X10_unknown_state_is_refused _ _ _ _ "COMPLETED").
  - reflexivity.
  - discriminate.
  - vm_compute. discriminate.
  - vm_compute. intros [H|[H|[H|[H|[]]]]]; discriminate.
Defined.

(* ------------------------------------------------------------------ *)
(** ** Who gets through the middleware *)

Lemma prefix_drop (p s : string) :
  String.prefix p s = true -> s = (p ++ Auth.drop (String.length p) s)%string.
Proof.
  revert s. induction p as [|c p IH]; intros s H; [reflexivity|].
  destruct s as [|d s]; [discriminate|]. simpl in H.
  destruct (Ascii.ascii_dec c d) as [Heq|Hne]; [|discriminate].
  subst d. simpl. f_equal. exact (IH s H).
Qed.

Lemma prefix_app (p s : string) : String.prefix p (p ++ s) = true.
Proof.
  induction p as [|c p IH]; simpl; [now destruct s|].
  destruct (Ascii.ascii_dec c c); [exact IH|congruence].
Qed.

Lemma drop_app (p s : string) : Auth.drop (String.length p) (p ++ s) = s.
Proof. induction p as [|c p IH]; simpl; [reflexivity|exact IH]. Qed.

(** Replacing a prefix removes it. *)
Lemma replace_prefix (p r s : string) :
  String.prefix p s = true ->
  Auth.replace p r s = (r ++ Auth.drop (String.length p) s)%string.
Proof.
  intro H. destruct s as [|c s]; cbn [Auth.replace]; rewrite H; reflexivity.
Qed.

(** The token is what follows the prefix "Bearer ". *)
Lemma bearer_spec (req : Auth.Req) (token : string) :
  Auth.bearer req = Some token <->
  Auth.authorization req = Some ("Bearer " ++ token)%string.
Proof.
  unfold Auth.bearer, Auth.startsWith. split.
  - destruct (Auth.authorization req) as [h|]; [|discriminate].
    destruct (String.prefix "Bearer " h) eqn:Hp; [|discriminate].
    rewrite (replace_prefix _ _ _ Hp). intro H. inversion H. f_equal.
    exact (prefix_drop "Bearer " h Hp).
  - intro H. rewrite H. rewrite (prefix_app "Bearer " token).
    rewrite (replace_prefix _ _ _ (prefix_app "Bearer " token)).
    rewrite (drop_app "Bearer " token). reflexivity.
Qed.

(** X11. A route guarded by [authenticate] and [authorize(roles)] runs its
    handler exactly for a request whose Authorization header is "Bearer "
    followed by a token that verifies and carries a userId, the database
    being reachable, the user row of that id existing and active, and the
    role in that row, not any role inside the token, being one of [roles];
    the handler then sees that row as [req.user]. *)
Theorem X11_guard_lets_through_iff
  (verify : string -> Auth.Verified) (down : bool) (users : list Auth.User)
  (roles : list string) (header : option string) (req' : Auth.Req) :
  Auth.chain [Auth.authenticate verify down users; Auth.authorize roles]
    (Auth.incoming header) = Auth.Next req' <->
  exists token pk u,
    header = Some ("Bearer " ++ token)%string /\
    verify token = Auth.Decoded (Some pk) /\
    down = false /\
    find (fun x => Z.eqb (Auth.id x) pk) users = Some u /\
    Auth.isActive u = true /\
    existsb (String.eqb (Auth.role u)) roles = true /\
    req' = Auth.attach (Auth.incoming header) u.
Proof.
  unfold Auth.chain, Auth.authenticate. split.
  - destruct (Auth.bearer (Auth.incoming header)) as [token|] eqn:Hb; [|discriminate].
    apply bearer_spec in Hb. simpl in Hb.
    destruct (verify token) as [[pk|]|name] eqn:Hv.
    + unfold Auth.findByPk. destruct down.
      * unfold Auth.auth_catch. simpl. discriminate.
      * destruct (find _ users) as [u|] eqn:Hf; [|discriminate].
        destruct (Auth.isActive u) eqn:Ha; [|discriminate].
        unfold Auth.authorize. cbn [Auth.attach Auth.user Auth.userRole Auth.includes].
        destruct (existsb (String.eqb (Auth.role u)) roles) eqn:Hr; [|discriminate].
        intro H. inversion H. exists token, pk, u. repeat split; assumption.
    + simpl. discriminate.
    + unfold Auth.auth_catch.
      destruct (String.eqb name "TokenExpiredError"); [discriminate|].
      destruct (String.eqb name "JsonWebTokenError"); discriminate.
  - intros (token & pk & u & Hh & Hv & Hd & Hf & Ha & Hr & Hreq).
    assert (Hb : Auth.bearer (Auth.incoming header) = Some token)
      by (apply bearer_spec; exact Hh).
    rewrite Hb, Hv, Hd. unfold Auth.findByPk. rewrite Hf, Ha.
    unfold Auth.authorize. cbn [Auth.attach Auth.user Auth.userRole Auth.includes].
    rewrite Hr, Hreq. reflexivity.
Qed.

(** X12. [optionalAuth] never answers the request itself.  It attaches the
    user exactly when [authenticate] would let the request through, and
    attaches what [authenticate] would; in every case in which [authenticate]
    would answer with an error, it passes the request on untouched. *)
Theorem X12_optionalAuth_agrees_with_authenticate
  (verify : string -> Auth.Verified) (down : bool) (users : list Auth.User)
  (req : Auth.Req) :
  (forall req', Auth.authenticate verify down users req = Auth.Next req' ->
                Auth.optionalAuth verify down users req = Auth.Next req') /\
  (forall status error message,
     Auth.authenticate verify down users req = Auth.Sent status error message ->
     Auth.optionalAuth verify down users req = Auth.Next req).
Proof.
  unfold Auth.authenticate, Auth.optionalAuth.
  destruct (Auth.bearer req) as [token|]; [|split; [discriminate|reflexivity]].
  destruct (verify token) as [pk|name].
  - destruct (Auth.findByPk down users pk) as [name|[u|]].
    + split; [|reflexivity]. unfold Auth.auth_catch.
      destruct (String.eqb name "TokenExpiredError"); [discriminate|].
      destruct (String.eqb name "JsonWebTokenError"); discriminate.
    + destruct (Auth.isActive u); split; try discriminate; try reflexivity.
      intros req' H. exact H.
    + split; [discriminate|reflexivity].
  - split; [|reflexivity]. unfold Auth.auth_catch.
    destruct (String.eqb name "TokenExpiredError"); [discriminate|].
    destruct (String.eqb name "JsonWebTokenError"); discriminate.
Qed.

Lemma X11_witness :
  exists req',
    Auth.chain [Auth.authenticate sample_verify false staff;
                Auth.authorize ["admin"; "analyst"]]
      (Auth.incoming (Some "Bearer analyst-token")) = Auth.Next req' /\
    Auth.userRole req' = Some "analyst".
Proof.
  eexists. split.
  - apply (proj2 (X11_guard_lets_through_iff sample_verify false staff
                    ["admin"; "analyst"] (Some "Bearer analyst-token") _)).
    exists "analyst-token", 2. eexists. repeat split; reflexivity.
  - reflexivity.
Defined.

Lemma X12_witness :
  Auth.optionalAuth sample_verify false staff (Auth.incoming (Some "Bearer old-token"))
  = Auth.Next (Auth.incoming (Some "Bearer old-token")) /\
  exists req',
    Auth.optionalAuth sample_verify false staff (Auth.incoming (Some "Bearer viewer-token"))
    = Auth.Next req' /\ Auth.userId req' = Some 3.
Proof.
  split.
  - apply (proj2 (X12_optionalAuth_agrees_with_authenticate sample_verify false staff _)
             401 "TokenExpired" "Token has expired").
    reflexivity.
  - eexists. split.
    + apply (proj1 (X12_optionalAuth_agrees_with_authenticate sample_verify false staff _)).
      reflexivity.
    + reflexivity.
Defined.

(* ------------------------------------------------------------------ *)
(** ** The routes behind their middleware *)

Lemma app_one_more {A : Type} (l : list A) (x : A) : l <> (l ++ [x])%list.
Proof.
  intro H. apply (f_equal (@List.length A)) in H. rewrite length_app in H.
  simpl in H. lia.
Qed.

Lemma authenticate_attaches verify down users req req' :
  Auth.authenticate verify down users req = Auth.Next req' ->
  exists token pk u,
    Auth.bearer req = Some token /\ verify token = Auth.Decoded (Some pk) /\
    down = false /\
    find (fun x => Z.eqb (Auth.id x) pk) users = Some u /\
    Auth.isActive u = true /\ req' = Auth.attach req u.
Proof.
  unfold Auth.authenticate.
  destruct (Auth.bearer req) as [token|]; [|discriminate].
  destruct (verify token) as [[pk|]|name] eqn:Hv.
  - unfold Auth.findByPk. destruct down; [unfold Auth.auth_catch; simpl; discriminate|].
    destruct (find _ users) as [u|] eqn:Hf; [|discriminate].
    destruct (Auth.isActive u) eqn:Ha; [|discriminate].
    intro H. inversion H. exists token, pk, u. repeat split; assumption.
  - simpl. discriminate.
  - unfold Auth.auth_catch.
    destruct (String.eqb name "TokenExpiredError"); [discriminate|].
    destruct (String.eqb name "JsonWebTokenError"); discriminate.
Qed.

(** X13. Every automatic block names who reported.  Whenever a request to
    the guarded [/log] route leaves a new row in blocked_ips, the request
    carried a token that verified, the user row with the token's userId
    exists and is active, and the row's blockedBy is that user's id. *)
Theorem X13_block_names_the_verified_user
  (verify : string -> Auth.Verified) (auth_down : bool) (users : list Auth.User)
  (header : option string) (b : LogBody) (env : Await -> World) (s : Store)
  (row : BlockedIP) :
  blocked_ips (snd (Guarded.log_route verify auth_down users header b env s))
  = (blocked_ips s ++ [row])%list ->
  exists token pk u,
    header = Some ("Bearer " ++ token)%string /\
    verify token = Auth.Decoded (Some pk) /\
    find (fun x => Z.eqb (Auth.id x) pk) users = Some u /\
    Auth.id u = pk /\ Auth.isActive u = true /\
    blockedBy (block_attrs row) = Some pk /\
    ipAddress (block_attrs row) = src_ip b.
Proof.
  unfold Guarded.log_route, Auth.chain.
  destruct (Auth.authenticate verify auth_down users (Auth.incoming header))
    as [req|st e m] eqn:Hauth.
  - apply authenticate_attaches in Hauth.
    destruct Hauth as (token & pk & u & Hb & Hv & _ & Hf & Ha & Hreq).
    apply bearer_spec in Hb. simpl in Hb. rewrite Hreq. cbn [Auth.attach Auth.user snd].
    intro Hrows.
    assert (Hid : Auth.id u = pk).
    { apply find_some in Hf. destruct Hf as [_ Hf]. now apply Z.eqb_eq in Hf. }
    destruct (log_handler_blocked_ips (Auth.id u) b env s)
      as [Hsame|(row' & Happ & Hattrs & _)].
    + rewrite Hsame in Hrows. exfalso. exact (app_one_more _ _ Hrows).
    + rewrite Happ in Hrows. apply app_inj_tail in Hrows. destruct Hrows as [_ Heq].
      subst row'. exists token, pk, u. rewrite Hattrs.
      repeat split; try assumption. simpl. now rewrite Hid.
  - simpl. intro Hrows. exfalso. exact (app_one_more _ _ Hrows).
Qed.

Lemma X13_witness :
  exists row,
    blocked_ips (snd (Guarded.log_route sample_verify false staff
                        (Some "Bearer viewer-token") (ddos 0.95) (calm 1000) empty_store))
    = [row] /\ blockedBy (block_attrs row) = Some 3.
Proof.
  eexists. split; [vm_compute; reflexivity|].
  destruct (X13_block_names_the_verified_user sample_verify false staff
              (Some "Bearer viewer-token") (ddos 0.95) (calm 1000) empty_store _ eq_refl)
    as (token & pk & u & Hh & Hv & _ & _ & _ & Hby & _).
  inversion Hh; subst token. vm_compute in Hv. inversion Hv; subst pk. exact Hby.
Defined.

(** X14. The role decides on [/analyze] and plays no part on [/log].  For
    a request with a verified token of an active user: [/log] runs its handler
    whatever the role, a viewer's included; [/analyze] runs its handler when
    the role is admin or analyst, and otherwise answers 403 Forbidden and
    leaves the store as it was. *)
Theorem X14_role_gates_analyze_not_log
  (verify : string -> Auth.Verified) (users : list Auth.User)
  (token : string) (pk : Z) (u : Auth.User) :
  verify token = Auth.Decoded (Some pk) ->
  find (fun x => Z.eqb (Auth.id x) pk) users = Some u ->
  Auth.isActive u = true ->
  (forall b env s,
     Guarded.log_route verify false users (Some ("Bearer " ++ token)%string) b env s
     = (Guarded.Handled (fst (log_handler pk b env s)), snd (log_handler pk b env s))) /\
  (forall trafficData gw w1 w2 s,
     Auth.role u = "admin" \/ Auth.role u = "analyst" ->
     Guarded.analyze_route verify false users (Some ("Bearer " ++ token)%string)
       trafficData gw w1 w2 s
     = (Guarded.Handled (fst (analyze_handler trafficData gw w1 w2 s)),
        snd (analyze_handler trafficData gw w1 w2 s))) /\
  (forall trafficData gw w1 w2 s,
     Auth.role u <> "admin" -> Auth.role u <> "analyst" ->
     Guarded.analyze_route verify false users (Some ("Bearer " ++ token)%string)
       trafficData gw w1 w2 s
     = (Guarded.Refused 403 "Forbidden" "Insufficient permissions", s)).
Proof.
  intros Hv Hf Ha.
  assert (Hid : Auth.id u = pk).
  { apply find_some in Hf. destruct Hf as [_ Hf']. now apply Z.eqb_eq in Hf'. }
  assert (Hauth : Auth.authenticate verify false users
                    (Auth.incoming (Some ("Bearer " ++ token)%string))
                  = Auth.Next (Auth.attach (Auth.incoming (Some ("Bearer " ++ token)%string)) u)).
  { unfold Auth.authenticate.
    rewrite (proj2 (bearer_spec (Auth.incoming (Some ("Bearer " ++ token)%string)) token)
               eq_refl).
    rewrite Hv. unfold Auth.findByPk. rewrite Hf, Ha. reflexivity. }
  split; [|split].
  - intros b env s. unfold Guarded.log_route, Auth.chain. rewrite Hauth.
    cbn [Auth.attach Auth.user]. rewrite Hid. reflexivity.
  - intros trafficData gw w1 w2 s Hrole. unfold Guarded.analyze_route, Auth.chain.
    rewrite Hauth. unfold Auth.authorize.
    cbn [Auth.attach Auth.user Auth.userRole Auth.includes existsb].
    destruct Hrole as [Hr|Hr]; rewrite Hr; reflexivity.
  - intros trafficData gw w1 w2 s Hna Hnb. unfold Guarded.analyze_route, Auth.chain.
    rewrite Hauth. unfold Auth.authorize.
    cbn [Auth.attach Auth.user Auth.userRole Auth.includes existsb].
    apply String.eqb_neq in Hna, Hnb. rewrite Hna, Hnb. reflexivity.
Qed.

Lemma X14_witness :
  Guarded.analyze_route sample_verify false staff (Some "Bearer viewer-token")
    flow (Replied (Some verdict)) up up empty_store
  = (Guarded.Refused 403 "Forbidden" "Insufficient permissions", empty_store) /\
  exists pc s',
    Guarded.log_route sample_verify false staff (Some "Bearer viewer-token")
      (ddos 0.95) (calm 1000) empty_store = (Guarded.Handled pc, s') /\
    List.length (blocked_ips s') = 1%nat.
Proof.
  destruct (X14_role_gates_analyze_not_log sample_verify staff "viewer-token" 3
              {| Auth.id := 3; Auth.username := "viewer"; Auth.role := "viewer";
                 Auth.isActive := true |} eq_refl eq_refl eq_refl)
    as (Hlog & _ & Hdenied).
  split.
  - apply Hdenied; discriminate.
  - do 2 eexists. split; [apply Hlog|]. vm_compute. reflexivity.
Defined.

(* ------------------------------------------------------------------ *)
(** ** What the dashboard shows after a report *)

Lemma count_snoc {A : Type} (p : A -> bool) (rows : list A) (x : A) :
  Dashboard.count p (rows ++ [x]) = Dashboard.count p rows + (if p x then 1 else 0).
Proof.
  unfold Dashboard.count. rewrite filter_app, length_app. simpl.
  destruct (p x); simpl; lia.
Qed.

Lemma count_and_le {A : Type} (p q : A -> bool) (rows : list A) :
  0 <= Dashboard.count (fun x => (p x && q x)%bool) rows <= Dashboard.count p rows.
Proof.
  unfold Dashboard.count. pose proof (filter_and_length p q rows). lia.
Qed.

(** X15. What a report of [/log] adds to the dashboard.  When the report
    raises an alert, the count of open alerts rises by one; the count of
    critical alerts rises by one only from a confidence of 0.90 on, so an
    alert that [/log] labels CRITICAL at a confidence in [0.80, 0.90) is not
    counted as critical.  The count of blocked addresses rises by one exactly
    when the report wrote a block. *)
Theorem X15_dashboard_after_report
  (user_id : Z) (b : LogBody) (env : Await -> World) (s s1 : Store) (t : TrafficLog)
  (c : Q) (now : Z) :
  TrafficLog_create (db_down (env at_traffic)) (column_now (env at_traffic))
    (log_traffic_attrs b) s = inr (t, s1) ->
  db_down (env at_alert) = false ->
  is_attack b = Some true -> confidence b = Some c -> (0.5 <= c)%Q ->
  exists before after,
    Dashboard.overview false now s = Some before /\
    Dashboard.overview false now (snd (log_handler user_id b env s)) = Some after /\
    Dashboard.alerts_open after = Dashboard.alerts_open before + 1 /\
    ((0.9 <= c)%Q ->
     Dashboard.alerts_critical after = Dashboard.alerts_critical before + 1) /\
    ((c < 0.9)%Q -> Dashboard.alerts_critical after = Dashboard.alerts_critical before) /\
    (blocked_ips (snd (log_handler user_id b env s)) = blocked_ips s ->
     Dashboard.blocked after = Dashboard.blocked before) /\
    (blocked_ips (snd (log_handler user_id b env s)) <> blocked_ips s ->
     Dashboard.blocked after = Dashboard.blocked before + 1).
Proof.
  intros Ht Hup Hi Hc Hle. do 2 eexists. split; [reflexivity|]. split; [reflexivity|].
  cbn [Dashboard.alerts_open Dashboard.alerts_critical Dashboard.blocked].
  rewrite (log_handler_alerts user_id b env s t s1 Ht Hup).
  rewrite (alert_due_true b c Hi Hc Hle). rewrite !count_snoc.
  split; [reflexivity|].
  unfold Dashboard.is_critical. cbn [alert_attrs Alert_defaults log_alert_attrs severity status default].
  rewrite Hc. split; [|split; [|split]].
  - intro H. rewrite (proj2 (ge_true c 0.9) H). reflexivity.
  - intro H. rewrite (proj2 (ge_false c 0.9) H).
    destruct (JS.ge (Some c) 0.7); simpl; lia.
  - intro Hsame. now rewrite Hsame.
  - intro Hdiff.
    destruct (log_handler_blocked_ips user_id b env s)
      as [Hsame|(row & Happ & Hattrs & _)]; [contradiction|].
    rewrite Happ, count_snoc. unfold active. rewrite Hattrs. reflexivity.
Qed.

(** At 0.85 the alert is labelled CRITICAL and the critical count stays. *)
Lemma X15_witness :
  exists before after a,
    Dashboard.overview false 2000 empty_store = Some before /\
    Dashboard.overview false 2000
      (snd (log_handler admin (ddos 0.85) (calm 1000) empty_store)) = Some after /\
    alerts (snd (log_handler admin (ddos 0.85) (calm 1000) empty_store)) = [a] /\
    alertType (alert_attrs a) = Some "CRITICAL" /\
    Dashboard.alerts_critical after = Dashboard.alerts_critical before /\
    Dashboard.blocked after = Dashboard.blocked before + 1.
Proof.
  destruct (X15_dashboard_after_report admin (ddos 0.85) (calm 1000) empty_store _ _
              0.85%Q 2000 eq_refl eq_refl eq_refl eq_refl)
    as (before & after & Hb & Ha & _ & _ & Hlow & _ & Hblocked).
  - unfold Qle; simpl; lia.
  - exists before, after. eexists. split; [exact Hb|]. split; [exact Ha|].
    split; [vm_compute; reflexivity|]. split; [reflexivity|]. split.
    + apply Hlow. unfold Qlt; simpl; lia.
    + apply Hblocked. vm_compute. discriminate.
Defined.

Lemma bucket_total now s i :
  Dashboard.normal (Dashboard.bucket now s i) + Dashboard.attacks (Dashboard.bucket now s i)
  = Dashboard.count (Dashboard.between (now - i * 5 * 60 * 1000)
                                       (now - (i - 1) * 5 * 60 * 1000)) (traffic_logs s).
Proof. unfold Dashboard.bucket. simpl. lia. Qed.

Lemma shown_timeline now s (intervals : list Z) :
  shown (map (Dashboard.bucket now s) intervals)
  = fold_right (fun i rest =>
                  Dashboard.count (Dashboard.between (now - i * 5 * 60 * 1000)
                                                     (now - (i - 1) * 5 * 60 * 1000))
                                  (traffic_logs s) + rest) 0 intervals.
Proof.
  induction intervals as [|i rest IH]; [reflexivity|].
  cbn [map shown fold_right]. fold (shown (map (Dashboard.bucket now s) rest)).
  rewrite IH, <- bucket_total. lia.
Qed.

Lemma between_cases lo hi t :
  (lo <= timestamp t <= hi /\ (if Dashboard.between lo hi t then 1 else 0) = 1) \/
  ((timestamp t < lo \/ hi < timestamp t) /\ (if Dashboard.between lo hi t then 1 else 0) = 0).
Proof.
  unfold Dashboard.between.
  destruct (lo <=? timestamp t) eqn:H1; destruct (timestamp t <=? hi) eqn:H2; simpl;
    try apply Z.leb_le in H1; try apply Z.leb_le in H2;
    try apply Z.leb_gt in H1; try apply Z.leb_gt in H2; lia.
Qed.

(** X16. The six intervals of the traffic timeline reach from 25 minutes
    before [now] to 5 minutes after it, and their ends are shared.  One more
    sample in the store adds to the samples shown: nothing when it is older
    than 25 minutes (or later than [now] plus 5 minutes); two when its
    timestamp is [now] or a multiple of 5 minutes up to 20 minutes before
    [now], since the sample is then counted in both adjacent intervals; one
    in every other case.  No interval ever shows a negative count. *)
Theorem X16_timeline_intervals
  (now : Z) (s s' : Store) (t : TrafficLog) :
  traffic_logs s' = (traffic_logs s ++ [t])%list ->
  exists before after,
    Dashboard.overview false now s = Some before /\
    Dashboard.overview false now s' = Some after /\
    (timestamp t < now - 25 * 60 * 1000 \/ now + 5 * 60 * 1000 < timestamp t ->
     shown (Dashboard.trafficTimeline after) = shown (Dashboard.trafficTimeline before)) /\
    ((exists k, 0 <= k <= 4 /\ timestamp t = now - k * 5 * 60 * 1000) ->
     shown (Dashboard.trafficTimeline after)
     = shown (Dashboard.trafficTimeline before) + 2) /\
    (now - 25 * 60 * 1000 <= timestamp t <= now + 5 * 60 * 1000 ->
     (forall k, 0 <= k <= 4 -> timestamp t <> now - k * 5 * 60 * 1000) ->
     shown (Dashboard.trafficTimeline after)
     = shown (Dashboard.trafficTimeline before) + 1) /\
    Forall (fun bk => 0 <= Dashboard.normal bk /\ 0 <= Dashboard.attacks bk)
           (Dashboard.trafficTimeline after).
Proof.
  intro Hl. do 2 eexists. split; [reflexivity|]. split; [reflexivity|].
  cbn [Dashboard.trafficTimeline]. rewrite !shown_timeline. cbn [fold_right].
  rewrite Hl, !count_snoc.
  pose proof (between_cases (now - 5 * 5 * 60 * 1000) (now - (5 - 1) * 5 * 60 * 1000) t) as H5.
  pose proof (between_cases (now - 4 * 5 * 60 * 1000) (now - (4 - 1) * 5 * 60 * 1000) t) as H4.
  pose proof (between_cases (now - 3 * 5 * 60 * 1000) (now - (3 - 1) * 5 * 60 * 1000) t) as H3.
  pose proof (between_cases (now - 2 * 5 * 60 * 1000) (now - (2 - 1) * 5 * 60 * 1000) t) as H2.
  pose proof (between_cases (now - 1 * 5 * 60 * 1000) (now - (1 - 1) * 5 * 60 * 1000) t) as H1.
  pose proof (between_cases (now - 0 * 5 * 60 * 1000) (now - (0 - 1) * 5 * 60 * 1000) t) as H0.
  split; [|split; [|split]].
  - intro Hout. lia.
  - intros (k & Hk & Hts).
    assert (Hk' : k = 0 \/ k = 1 \/ k = 2 \/ k = 3 \/ k = 4) by lia.
    destruct Hk' as [E|[E|[E|[E|E]]]]; subst k; lia.
  - intros Hin Hoff.
    pose proof (Hoff 0). pose proof (Hoff 1). pose proof (Hoff 2).
    pose proof (Hoff 3). pose proof (Hoff 4). lia.
  - repeat constructor; unfold Dashboard.bucket; cbn [Dashboard.normal Dashboard.attacks];
      match goal with
      | |- context [Dashboard.count (fun x => (?p x && ?q x)%bool) ?rows] =>
        pose proof (count_and_le p q rows)
      end; lia.
Qed.

(** A sample taken exactly five minutes before [now] is shown twice; one
    taken twenty-six minutes before is not shown. *)
Lemma X16_witness :
  exists before after,
    Dashboard.overview false 3000000 empty_store = Some before /\
    Dashboard.overview false 3000000
      (snd (log_handler admin benign (calm 2700000) empty_store)) = Some after /\
    shown (Dashboard.trafficTimeline after) = shown (Dashboard.trafficTimeline before) + 2.
Proof.
  destruct (X16_timeline_intervals 3000000 empty_store
              (snd (log_handler admin benign (calm 2700000) empty_store))
              {| log_id := 1; timestamp := 2700000;
                 log_attrs := TrafficLog_defaults (log_traffic_attrs benign) |} eq_refl)
    as (before & after & Hb & Ha & _ & Htwice & _).
  exists before, after. split; [exact Hb|]. split; [exact Ha|].
  apply Htwice. exists 1. split; [lia|reflexivity].
Defined.

(* ------------------------------------------------------------------ *)
(** ** Listing traffic page by page *)

Lemma firstn_plus {A : Type} (a b : nat) (l : list A) :
  firstn (a + b) l = (firstn a l ++ firstn b (skipn a l))%list.
Proof.
  revert l. induction a as [|a IH]; intro l; [reflexivity|].
  destruct l as [|x l]; simpl; [now rewrite firstn_nil|]. now rewrite IH.
Qed.

(** Consecutive windows of [size] rows, put end to end, are a prefix. *)
Lemma windows_concat {A : Type} (size n : nat) (l : list A) :
  List.concat (map (fun k => firstn size (skipn (k * size) l)) (seq 0 n)) = firstn (n * size) l.
Proof.
  induction n as [|n IH]; [reflexivity|].
  rewrite seq_S, map_app, concat_app, IH. simpl.
  rewrite app_nil_r, Nat.add_comm. symmetry. apply firstn_plus.
Qed.

Lemma in_firstn {A : Type} (n : nat) (l : list A) (x : A) : In x (firstn n l) -> In x l.
Proof. intro H. rewrite <- (firstn_skipn n l). apply in_or_app. now left. Qed.

Lemma in_skipn {A : Type} (n : nat) (l : list A) (x : A) : In x (skipn n l) -> In x l.
Proof. intro H. rewrite <- (firstn_skipn n l). apply in_or_app. now right. Qed.

Lemma ceil_div_covers (count : Z) (size : positive) :
  0 <= count ->
  0 <= TrafficQueries.ceil_div count size /\
  count <= TrafficQueries.ceil_div count size * Z.pos size.
Proof.
  intro Hc. unfold TrafficQueries.ceil_div.
  pose proof (Z.mul_succ_div_gt (count + Z.pos size - 1) (Z.pos size) (Pos2Z.is_pos size)).
  pose proof (Z.div_pos (count + Z.pos size - 1) (Z.pos size)).
  lia.
Qed.

Section Listing.

(** The order of a listing: some arrangement of the matching rows. *)
Variable ordered : list TrafficLog -> list TrafficLog.
Hypothesis ordered_perm : forall l, Permutation (ordered l) l.

(** X18. The [isAttack] parameter of a listing is compared with the text
    "true".  When it is present, every row listed has a verdict, and the
    verdict is "attack" exactly when the parameter is that text: any other
    value, "false" as well as "1" or "TRUE", lists the rows found harmless. *)
Theorem X18_isAttack_parameter
  (down : bool) (q : TrafficQueries.Query) (s : Store) (v : string)
  (rows : list TrafficLog) (pg : TrafficQueries.Pagination) (t : TrafficLog) :
  TrafficQueries.isAttack q = Some v ->
  TrafficQueries.list_traffic ordered down q s = TrafficQueries.Listed rows pg ->
  In t rows ->
  In t (traffic_logs s) /\
  (v = "true" -> isAttack (log_attrs t) = Some true) /\
  (v <> "true" -> isAttack (log_attrs t) = Some false).
Proof.
  intros Hv. unfold TrafficQueries.list_traffic.
  destruct (down || _ || _)%bool; [discriminate|].
  intros H Hin. inversion H; subst; clear H.
  apply in_firstn, in_skipn in Hin.
  apply (Permutation_in _ (ordered_perm _)) in Hin.
  apply filter_In in Hin. destruct Hin as [Hin Hm]. split; [exact Hin|].
  unfold TrafficQueries.matches in Hm. rewrite Hv in Hm.
  repeat (apply andb_true_iff in Hm; destruct Hm as [Hm _]).
  destruct (isAttack (log_attrs t)) as [flag|]; [|discriminate].
  apply Bool.eqb_prop in Hm. subst flag. split.
  - intro E. subst v. reflexivity.
  - intro E. apply String.eqb_neq in E. now rewrite E.
Qed.

End Listing.

Lemma ceil_div_rounds_up (count : Z) (size : positive) :
  (TrafficQueries.ceil_div count size - 1) * Z.pos size < count
  <= TrafficQueries.ceil_div count size * Z.pos size.
Proof.
  unfold TrafficQueries.ceil_div.
  pose proof (Z.mul_succ_div_gt (count + Z.pos size - 1) (Z.pos size) (Pos2Z.is_pos size)).
  pose proof (Z.mul_div_le (count + Z.pos size - 1) (Z.pos size) (Pos2Z.is_pos size)).
  lia.
Qed.

(** Page [k] of a query whose first page is served, with the order in
    which the database returns the rows for that page. *)
Lemma list_traffic_page (first other : list TrafficLog -> list TrafficLog)
  (q : TrafficQueries.Query) (s : Store) (k : Z) rows pg :
  TrafficQueries.list_traffic first false (with_page q 1) s = TrafficQueries.Listed rows pg ->
  1 <= k ->
  TrafficQueries.list_traffic other false (with_page q k) s
  = TrafficQueries.Listed
      (firstn (Pos.to_nat (TrafficQueries.limit q))
         (skipn (Z.to_nat (k - 1) * Pos.to_nat (TrafficQueries.limit q))
            (other (filter (TrafficQueries.matches q) (traffic_logs s)))))
      {| TrafficQueries.total := TrafficQueries.total pg;
         TrafficQueries.p_page := k;
         TrafficQueries.p_limit := TrafficQueries.p_limit pg;
         TrafficQueries.totalPages := TrafficQueries.totalPages pg |} /\
  TrafficQueries.total pg
  = Z.of_nat (List.length (filter (TrafficQueries.matches q) (traffic_logs s))) /\
  TrafficQueries.totalPages pg
  = TrafficQueries.ceil_div (TrafficQueries.total pg) (TrafficQueries.limit q).
Proof.
  unfold TrafficQueries.list_traffic.
  cbn [with_page TrafficQueries.page TrafficQueries.limit TrafficQueries.trafficState].
  change (TrafficQueries.matches (with_page q 1)) with (TrafficQueries.matches q).
  change (TrafficQueries.matches (with_page q k)) with (TrafficQueries.matches q).
  destruct (negb (is_null _)) eqn:Hbad.
  - rewrite !orb_true_r. discriminate.
  - intros H Hk. simpl in H. inversion H; subst; clear H.
    assert (Hoff : ((k - 1) * Z.pos (TrafficQueries.limit q) <? 0) = false)
      by (apply Z.ltb_ge; nia).
    rewrite Hoff. cbn [orb TrafficQueries.total TrafficQueries.totalPages
                       TrafficQueries.p_limit].
    split; [|split; reflexivity].
    f_equal. f_equal. f_equal.
    rewrite Z2Nat.inj_mul by lia. reflexivity.
Qed.

(** X17. The pages of a listing cover it exactly once, when the database
    returns the matching rows in the same order for every page.  [orders k]
    is the order in which the rows come back for the request of page [k].
    When the first page of a query is served, its [total] is the number of
    matching rows and its [totalPages] is that number divided by [limit] and
    rounded up: the least number of pages of [limit] rows that hold [total]
    rows.  Pages 1 to [totalPages], put end to end, are the matching rows in
    the order of the listing, none missing and none twice; every later page
    is served empty. *)
Theorem X17_pages_cover_the_listing
  (orders : Z -> list TrafficLog -> list TrafficLog)
  (q : TrafficQueries.Query) (s : Store) (rows : list TrafficLog)
  (pg : TrafficQueries.Pagination) :
  (forall k l, Permutation (orders k l) l) ->
  (forall k, orders k (filter (TrafficQueries.matches q) (traffic_logs s))
             = orders 1 (filter (TrafficQueries.matches q) (traffic_logs s))) ->
  TrafficQueries.list_traffic (orders 1) false (with_page q 1) s
  = TrafficQueries.Listed rows pg ->
  TrafficQueries.total pg
  = Z.of_nat (List.length (filter (TrafficQueries.matches q) (traffic_logs s))) /\
  (TrafficQueries.totalPages pg - 1) * Z.pos (TrafficQueries.limit q)
  < TrafficQueries.total pg
  <= TrafficQueries.totalPages pg * Z.pos (TrafficQueries.limit q) /\
  List.concat (map (fun k => data_of (TrafficQueries.list_traffic (orders (Z.of_nat k)) false
                                        (with_page q (Z.of_nat k)) s))
                   (seq 1 (Z.to_nat (TrafficQueries.totalPages pg))))
  = orders 1 (filter (TrafficQueries.matches q) (traffic_logs s)) /\
  (forall k, TrafficQueries.totalPages pg < k ->
     exists pg', TrafficQueries.list_traffic (orders k) false (with_page q k) s
                 = TrafficQueries.Listed [] pg').
Proof.
  intros Hperm Hstable Hfirst.
  destruct (list_traffic_page (orders 1) (orders 1) q s 1 rows pg Hfirst (Z.le_refl 1))
    as (_ & Htotal & Hpages).
  set (all := orders 1 (filter (TrafficQueries.matches q) (traffic_logs s))) in *.
  set (size := Pos.to_nat (TrafficQueries.limit q)).
  assert (Hlen : List.length all
                 = List.length (filter (TrafficQueries.matches q) (traffic_logs s)))
    by (apply Permutation_length, Hperm).
  pose proof (ceil_div_rounds_up (TrafficQueries.total pg) (TrafficQueries.limit q))
    as Hround.
  rewrite <- Hpages in Hround.
  assert (Hnn : 0 <= TrafficQueries.totalPages pg) by (rewrite Htotal in Hround; nia).
  assert (Hsize : Z.of_nat size = Z.pos (TrafficQueries.limit q))
    by (unfold size; apply positive_nat_Z).
  split; [exact Htotal|]. split; [exact Hround|]. split.
  - rewrite <- seq_shift, map_map.
    rewrite (map_ext_in _ (fun k => firstn size (skipn (k * size) all))).
    + rewrite windows_concat. apply firstn_all2. nia.
    + intros k _.
      destruct (list_traffic_page (orders 1) (orders (Z.of_nat (S k))) q s (Z.of_nat (S k))
                  rows pg Hfirst) as (Hk & _); [lia|].
      rewrite Hk. cbn [data_of]. rewrite Hstable. fold all. fold size.
      replace (Z.to_nat (Z.of_nat (S k) - 1)) with k by lia. reflexivity.
  - intros k Hk.
    destruct (list_traffic_page (orders 1) (orders k) q s k rows pg Hfirst)
      as (Hpage & _); [lia|].
    rewrite Hpage, Hstable. fold all. fold size. eexists. f_equal.
    rewrite skipn_all2; [now rewrite firstn_nil|]. nia.
Qed.

Lemma latest_first_perm (l : list TrafficLog) : Permutation (latest_first l) l.
Proof. apply Permutation_sym, Permutation_rev. Qed.

Lemma X17_witness :
  List.concat (map (fun k => data_of (TrafficQueries.list_traffic latest_first false
                                        (with_page everything (Z.of_nat k)) busy))
                   (seq 1 2))
  = rev (traffic_logs busy) /\
  List.length (traffic_logs busy) = 3%nat /\
  exists pg', TrafficQueries.list_traffic latest_first false (with_page everything 3) busy
              = TrafficQueries.Listed [] pg'.
Proof.
  destruct (TrafficQueries.list_traffic latest_first false (with_page everything 1) busy)
    as [rows pg|] eqn:H1; [|vm_compute in H1; discriminate].
  destruct (X17_pages_cover_the_listing (fun _ => latest_first) everything busy rows pg
              (fun _ => latest_first_perm) (fun _ => eq_refl) H1)
    as (_ & _ & Hcat & Hlate).
  assert (Hpages : TrafficQueries.totalPages pg = 2)
    by (vm_compute in H1; inversion H1; reflexivity).
  rewrite Hpages in Hcat, Hlate. split; [exact Hcat|]. split; [reflexivity|].
  apply Hlate. lia.
Defined.

Lemma X18_witness :
  exists rows pg,
    TrafficQueries.list_traffic latest_first false shouting busy
    = TrafficQueries.Listed rows pg /\
    List.length rows = 1%nat /\
    Forall (fun t => isAttack (log_attrs t) = Some false) rows.
Proof.
  destruct (TrafficQueries.list_traffic latest_first false shouting busy)
    as [rows pg|] eqn:H1; [|vm_compute in H1; discriminate].
  exists rows, pg. split; [reflexivity|]. split.
  - vm_compute in H1. inversion H1. reflexivity.
  - apply Forall_forall. intros t Hin.
    apply (X18_isAttack_parameter latest_first latest_first_perm false shouting busy
             "TRUE" rows pg t eq_refl H1 Hin).
    discriminate.
Defined.

(* ------------------------------------------------------------------ *)
(** ** Fetching what was logged *)

Lemma find_absent {A : Type} (p : A -> bool) (l : list A) :
  (forall x, In x l -> p x = false) -> find p l = None.
Proof.
  induction l as [|y l IH]; simpl; intro H; [reflexivity|].
  rewrite (H y (or_introl eq_refl)). apply IH. intros x Hx. apply H. now right.
Qed.

Lemma find_snoc {A : Type} (p : A -> bool) (l : list A) (x : A) :
  find p l = None -> find p (l ++ [x]) = if p x then Some x else None.
Proof.
  induction l as [|y l IH]; simpl; intro H; [reflexivity|].
  destruct (p y); [discriminate|]. exact (IH H).
Qed.

Lemma filter_absent {A : Type} (p : A -> bool) (l : list A) :
  (forall x, In x l -> p x = false) -> filter p l = [].
Proof.
  induction l as [|y l IH]; simpl; intro H; [reflexivity|].
  rewrite (H y (or_introl eq_refl)). apply IH. intros x Hx. apply H. now right.
Qed.

Lemma log_ok_sample_id user_id b env s t created emitted :
  fst (log_handler user_id b env s) = Responded (LogOk t created) emitted ->
  log_id t = traffic_log_seq s.
Proof.
  rewrite log_handler_direct. unfold log_direct, log_ok, log_error.
  destruct (TrafficLog_create _ _ _ s) as [e|[t0 s1]] eqn:Ht; [discriminate|].
  apply TrafficLog_create_ok in Ht. destruct Ht as (_ & _ & Hrow & _).
  assert (Hid : log_id t0 = traffic_log_seq s) by now rewrite Hrow. clear Hrow.
  destruct (alert_due b).
  - destruct (Alert_create _ _ s1) as [e|[a s2]]; [discriminate|].
    destruct (JS.ge (confidence b) 0.7).
    + destruct (BlockedIP_findOne_active _ _ s2) as [e|[found|]]; [discriminate| |].
      * simpl. intro H. inversion H; subst. exact Hid.
      * destruct (BlockedIP_create _ _ _ s2) as [e|[row s3]]; [discriminate|].
        simpl. intro H. inversion H; subst. exact Hid.
    + simpl. intro H. inversion H; subst. exact Hid.
  - simpl. intro H. inversion H; subst. exact Hid.
Qed.

(** X19. What [/log] answered can be fetched.  After a success answer of
    [/log] on a store whose id sequence is ahead of its samples and whose
    alerts refer to stored samples, [GET /api/traffic/:id] with the id of the
    answered sample finds that very sample, together with exactly the alert
    the request raised, or with none when it raised none. *)
Theorem X19_logged_sample_can_be_fetched
  (user_id : Z) (b : LogBody) (env : Await -> World) (s : Store)
  (t : TrafficLog) (created : option bool) (emitted : list Event) :
  fst (log_handler user_id b env s) = Responded (LogOk t created) emitted ->
  ids_below_seq s -> linked s ->
  TrafficQueries.get_traffic false (log_id t) (snd (log_handler user_id b env s))
  = TrafficQueries.Found t (raised emitted).
Proof.
  intros Hok Hids Hlk.
  pose proof (log_ok_sample_id _ _ _ _ _ _ _ Hok) as Hid.
  destruct (log_success_store _ _ _ _ _ _ _ Hok) as (Hl & Hcases).
  unfold TrafficQueries.get_traffic. rewrite Hl.
  rewrite find_snoc.
  2: { apply find_absent. intros x Hx. apply Z.eqb_neq. specialize (Hids x Hx). lia. }
  rewrite Z.eqb_refl.
  assert (Hold : filter (fun a => match trafficLogId (alert_attrs a) with
                                  | Some k => k =? log_id t
                                  | None => false
                                  end) (alerts s) = []).
  { apply filter_absent. intros a Ha. destruct (Hlk a Ha) as (t0 & Ht0 & Hlink).
    rewrite Hlink. apply Z.eqb_neq. specialize (Hids t0 Ht0). lia. }
  destruct Hcases as [(_ & a & Ha & Hlink & Hev)|(_ & Ha & Hev)]; rewrite Ha, Hev.
  - rewrite filter_app, Hold. simpl. rewrite Hlink, Z.eqb_refl. reflexivity.
  - rewrite Hold. reflexivity.
Qed.

Lemma X19_witness :
  exists t a,
    TrafficQueries.get_traffic false 1
      (snd (log_handler admin (ddos 0.59) (calm 1000) empty_store))
    = TrafficQueries.Found t [a] /\ severity (alert_attrs a) = Some 3.
Proof.
  do 2 eexists. split.
  - apply (X19_logged_sample_can_be_fetched admin (ddos 0.59) (calm 1000) empty_store
             _ _ _ eq_refl).
    + intros x [].
    + intros x [].
  - reflexivity.
Defined.

(* ------------------------------------------------------------------ *)
(** ** [/verify] and [authenticate] *)

Lemma length_append (a b : string) :
  String.length (a ++ b) = (String.length a + String.length b)%nat.
Proof. induction a as [|c a IH]; simpl; [reflexivity|now rewrite IH]. Qed.

(** X20. [/verify] and [authenticate] read the header differently.  With a
    [jwt.verify] that rejects the empty token, every
    request that [authenticate] lets through is declared valid by [/verify],
    with the same user.  Not the other way round: a token sent bare, without
    the "Bearer " prefix, is answered 401 by [authenticate], while [/verify]
    treats it as it treats the prefixed token.  And [/verify] answers 401 to
    everything it does not accept, a disabled account and an unreachable
    database included. *)
Theorem X20_verify_route_and_authenticate
  (verify : string -> Auth.Verified) (down : bool) (users : list Auth.User) :
  (exists name, verify "" = Auth.Throws name) ->
  (forall header req',
     Auth.authenticate verify down users (Auth.incoming header) = Auth.Next req' ->
     exists u, Auth.user req' = Some u /\
               AuthRoutes.verify_route verify down users header = AuthRoutes.Valid u) /\
  (forall token,
     Auth.replace "Bearer " "" token = token ->
     Auth.authenticate verify down users (Auth.incoming (Some token))
     = Auth.Sent 401 "Unauthorized" "No token provided" /\
     AuthRoutes.verify_route verify down users (Some token)
     = AuthRoutes.verify_route verify down users (Some ("Bearer " ++ token)%string)) /\
  (forall header status error message,
     AuthRoutes.verify_route verify down users header
     = AuthRoutes.Invalid status error message -> status = 401).
Proof.
  intros [thrown Hempty]. split; [|split].
  - intros header req' Hauth. apply authenticate_attaches in Hauth.
    destruct Hauth as (token & pk & u & Hb & Hv & Hd & Hf & Ha & Hreq).
    exists u. split; [now rewrite Hreq|].
    assert (Hpk : Auth.findByPk down users (Some pk) = inr (Some u))
      by (unfold Auth.findByPk; now rewrite Hd, Hf).
    unfold Auth.bearer, Auth.startsWith in Hb. simpl in Hb.
    destruct header as [h|]; [|discriminate].
    destruct (String.prefix "Bearer " h) eqn:Hp; [|discriminate].
    inversion Hb as [Htok]. unfold AuthRoutes.verify_route, AuthRoutes.token_of.
    rewrite Htok. cbn [JS.interp].
    destruct token as [|c token]; [congruence|].
    rewrite Hv, Hpk, Ha. reflexivity.
  - intros token Hbare.
    assert (Hp : String.prefix "Bearer " token = false).
    { destruct (String.prefix "Bearer " token) eqn:Hp; [|reflexivity].
      rewrite (replace_prefix _ _ _ Hp) in Hbare.
      apply (f_equal String.length) in Hbare.
      rewrite (prefix_drop _ _ Hp) in Hbare at 2.
      rewrite length_append in Hbare. simpl in Hbare. lia. }
    split.
    + unfold Auth.authenticate, Auth.bearer, Auth.startsWith. simpl. now rewrite Hp.
    + unfold AuthRoutes.verify_route, AuthRoutes.token_of.
      rewrite Hbare, (replace_prefix _ _ _ (prefix_app "Bearer " token)).
      rewrite (drop_app "Bearer " token). reflexivity.
  - intros header status error message. unfold AuthRoutes.verify_route.
    assert (Hinv : forall e m, AuthRoutes.Invalid 401 e m
                               = AuthRoutes.Invalid status error message -> status = 401).
    { intros e m H. injection H as Hs _ _. now rewrite <- Hs. }
    clear Hempty.
    destruct (JS.truthy_str _); [|apply Hinv].
    destruct (verify _) as [pk|name]; [|apply Hinv].
    destruct (Auth.findByPk down users pk) as [name|[u|]]; try apply Hinv.
    destruct (Auth.isActive u); [discriminate|apply Hinv].
Qed.

Lemma X20_witness :
  AuthRoutes.verify_route sample_verify false staff (Some "viewer-token")
  = AuthRoutes.verify_route sample_verify false staff (Some "Bearer viewer-token") /\
  Auth.authenticate sample_verify false staff (Auth.incoming (Some "viewer-token"))
  = Auth.Sent 401 "Unauthorized" "No token provided".
Proof.
  destruct (X20_verify_route_and_authenticate sample_verify false staff) as (_ & Hbare & _).
  - exists "JsonWebTokenError". reflexivity.
  - destruct (Hbare "viewer-token" eq_refl) as [Hauth Hsame].
    split; [exact Hsame|exact Hauth].
Defined.
